(** * Endpoint-address utilities of stegotorus (src/util-net.cc)

    A shallow embedding of the four components of util-net.cc: the
    Win32 numeric-address shim ([inet_pton]), the endpoint parser
    ([resolve_address_port]), the address formatter
    ([printable_address]) and the holder of the process-wide
    asynchronous resolver ([get_evdns_base], [init_evdns_base]).

    C strings live in a heap of byte blocks, functions that touch
    memory, the log or the resolver run in a small state-and-error
    monad over a [world], and the platform primitives the file calls
    (getaddrinfo, evutil_getaddrinfo, inet_ntop, evdns_base_new, ...)
    are section variables. *)

From Stdlib Require Import ZArith String Ascii List Lia.
From Stdlib.Strings Require Import Byte.
From Stdlib Require Import DecimalString HexadecimalString DecimalZ DecimalPos.
From stdpp Require Import gmap strings list fin_maps.

Local Open Scope Z_scope.

(** ** Platform constants

    Values of the Linux/glibc headers (netinet/in.h, sys/socket.h,
    netdb.h); libevent's EVUTIL_AI_* and EVUTIL_EAI_* are the system's
    AI_* and EAI_* where the system defines them. *)
Module Platform.
Definition AF_UNSPEC : Z := 0.
Definition AF_LOCAL : Z := 1.
Definition AF_INET : Z := 2.
Definition AF_INET6 : Z := 10.
Definition SOCK_STREAM : Z := 1.
Definition INET6_ADDRSTRLEN : nat := 46.
Definition sizeof_sockaddr_in : Z := 16.
Definition sizeof_sockaddr_in6 : Z := 28.
Definition EVUTIL_AI_PASSIVE : Z := 0x0001.
Definition EVUTIL_AI_NUMERICHOST : Z := 0x0004.
Definition EVUTIL_AI_ADDRCONFIG : Z := 0x0020.
Definition EVUTIL_AI_NUMERICSERV : Z := 0x0400.
Definition EVUTIL_EAI_SYSTEM : Z := -11.
End Platform.
Import Platform.

(** ** Bytes, C strings and printf-style formatting *)

Definition NUL : byte := x00.

Definition byte_to_Z (b : byte) : Z := Z.of_N (Byte.to_N b).

Definition char_byte (c : ascii) : byte := byte_of_ascii c.

(** The bytes of a C string up to, not including, its terminator;
    [None] when the block ends before a terminator is met. *)
Fixpoint cstr_bytes (l : list byte) : option (list byte) :=
  match l with
  | [] => None
  | b :: l' =>
      if Byte.eqb b NUL then Some []
      else match cstr_bytes l' with
           | Some s => Some (b :: s)
           | None => None
           end
  end.

(** strchr over the bytes at a pointer: the offset of the first [c],
    looking no further than the terminator. *)
Fixpoint strchr (l : list byte) (c : byte) : option nat :=
  match l with
  | [] => None
  | b :: l' =>
      if Byte.eqb b c then Some O
      else if Byte.eqb b NUL then None
      else match strchr l' c with
           | Some i => Some (S i)
           | None => None
           end
  end.

(** "%d" of an int. *)
Definition fmt_d (z : Z) : string := DecimalString.NilZero.string_of_int (Z.to_int z).

(** "%x" of an unsigned int. *)
Definition fmt_x (z : Z) : string :=
  HexadecimalString.NilZero.string_of_uint (N.to_hex_uint (Z.to_N z)).

Inductive fmt_arg : Type :=
| ArgS (s : string)
| ArgD (z : Z).

(** The text a printf-family call produces for the conversions this
    file uses, %s and %d (a conversion without its argument prints
    nothing). *)
Fixpoint format (f : string) (args : list fmt_arg) : string :=
  match f with
  | EmptyString => EmptyString
  | String c r =>
      if Ascii.eqb c "%" then
        match r with
        | String k r' =>
            if Ascii.eqb k "s" then
              match args with
              | ArgS s :: args' => s +:+ format r' args'
              | _ => format r' (List.tl args)
              end
            else if Ascii.eqb k "d" then
              match args with
              | ArgD z :: args' => fmt_d z +:+ format r' args'
              | _ => format r' (List.tl args)
              end
            else String c (String k (format r' args))
        | EmptyString => String c EmptyString
        end
      else String c (format r args)
  end.

Fixpoint string_take (n : nat) (s : string) : string :=
  match n, s with
  | S n', String c r => String c (string_take n' r)
  | _, _ => EmptyString
  end.

(** Modelled from the spec: xsnprintf is declared in util.h, whose
    source is not at hand; it is snprintf into a buffer of [size]
    bytes, so at most [size - 1] characters of the formatted text are
    kept before the terminator.  No call in this file comes near the
    limit (see [xsnprintf_host_port] and its siblings). *)
Definition xsnprintf (size : nat) (f : string) (args : list fmt_arg) : string :=
  string_take (size - 1) (format f args).

(** ** The world the functions run in *)

Inductive severity : Type := Debug | Warn.

(** struct addrinfo / struct evutil_addrinfo; a list of them is the
    chain through ai_next, the empty list the null pointer.  [ai_addr]
    holds the raw bytes of the socket address. *)
Record evutil_addrinfo : Type := Addrinfo {
  ai_flags : Z;
  ai_family : Z;
  ai_socktype : Z;
  ai_protocol : Z;
  ai_addrlen : nat;
  ai_addr : list byte
}.

(** memset(&hints, 0, sizeof hints) *)
Definition addrinfo_zero : evutil_addrinfo :=
  {| ai_flags := 0; ai_family := 0; ai_socktype := 0; ai_protocol := 0;
     ai_addrlen := 0; ai_addr := [] |}.

Inductive event_base : Type := EventBase (id : positive).
Inductive evdns_base : Type := EvdnsBase (id : positive).

(** A pointer: a heap block and an offset into it. *)
Record ptr : Type := Ptr { p_block : positive; p_off : nat }.

(** What the outside can observe of a run, oldest first. *)
Inductive event : Type :=
| Log (sev : severity) (msg : string)
| Getaddrinfo (node : string) (service : option string) (hints : evutil_addrinfo)
| Freeaddrinfo (ai : list evutil_addrinfo).

Record world : Type := World {
  heap : gmap positive (list byte);
  trace : list event;
  the_evdns_base : option evdns_base;   (* static, initially NULL *)
  evdns_made : nat                      (* evdns_base_new calls so far *)
}.

Definition initial_world : world :=
  {| heap := ∅; trace := []; the_evdns_base := None; evdns_made := 0 |}.

Definition set_heap (h : gmap positive (list byte)) (w : world) : world :=
  {| heap := h; trace := trace w;
     the_evdns_base := the_evdns_base w; evdns_made := evdns_made w |}.

Definition add_event (e : event) (w : world) : world :=
  {| heap := heap w; trace := trace w ++ [e];
     the_evdns_base := the_evdns_base w; evdns_made := evdns_made w |}.

(** A call returns a value and a new world, halts the process on a
    failed log_assert, or has no defined behaviour in C. *)
Inductive result (A : Type) : Type :=
| Returned (a : A) (w : world)
| Aborted
| Undefined.
Arguments Returned {A} a w.
Arguments Aborted {A}.
Arguments Undefined {A}.

Definition M (A : Type) : Type := world → result A.

#[global] Instance M_ret : MRet M := λ A a w, Returned a w.
#[global] Instance M_bind : MBind M := λ A B f m w,
  match m w with
  | Returned a w' => f a w'
  | Aborted => Aborted
  | Undefined => Undefined
  end.

(** Modelled from the spec: log_debug and log_warn of util.h, the
    logging interface with debug and warning severities; a call adds
    one formatted line to the log. *)
Definition log_at (sev : severity) (f : string) (args : list fmt_arg) : M unit :=
  λ w, Returned tt (add_event (Log sev (format f args)) w).
Definition log_debug := log_at Debug.
Definition log_warn := log_at Warn.

(** Modelled from the spec: log_assert of util.h, the assertion
    primitive that halts the process on a contract violation. *)
Definition log_assert (b : bool) : M unit :=
  λ w, if b then Returned tt w else Aborted.

(** The C string at a pointer, if the pointer is into a live block and
    a terminator follows within the block. *)
Definition cstr_at (h : gmap positive (list byte)) (p : ptr) : option string :=
  blk ← h !! p_block p;
  string_of_list_byte <$> cstr_bytes (drop (p_off p) blk).

Definition read_cstr (p : ptr) : M string :=
  λ w, match cstr_at (heap w) p with
       | Some s => Returned s w
       | None => Undefined
       end.

(** [*p = b] *)
Definition store_byte (p : ptr) (b : byte) : M unit :=
  λ w, match heap w !! p_block p with
       | Some blk =>
           if decide (p_off p < length blk)%nat
           then Returned tt (set_heap (<[p_block p := <[p_off p := b]> blk]> (heap w)) w)
           else Undefined
       | None => Undefined
       end.

(** A block after [n] bytes of [src] have been written at offset [off]. *)
Definition write_at (off : nat) (blk src : list byte) (n : nat) : list byte :=
  take off blk ++ take n src ++ drop (off + n) blk.

(** memcpy(dst, src, n) with [src] the bytes readable at the source;
    reading or writing past the end of a block is undefined. *)
Definition memcpy (dst : ptr) (src : list byte) (n : nat) : M unit :=
  λ w, match heap w !! p_block dst with
       | Some blk =>
           if decide (n ≤ length src ∧ p_off dst + n ≤ length blk)%nat
           then Returned tt
                  (set_heap (<[p_block dst := write_at (p_off dst) blk src n]> (heap w)) w)
           else Undefined
       | None => Undefined
       end.

(** Modelled from the spec: xstrdup of util.h, the string duplication
    primitive: a fresh block holding the string and its terminator
    (it does not return when memory runs out). *)
Definition xstrdup (s : string) : M ptr :=
  λ w, let b := fresh (dom (heap w)) in
       Returned (Ptr b 0) (set_heap (<[b := list_byte_of_string s ++ [NUL]]> (heap w)) w).

(** free(p): [p] must be the start of a live block. *)
Definition free (p : ptr) : M unit :=
  λ w, match heap w !! p_block p with
       | Some _ =>
           if decide (p_off p = 0)%nat
           then Returned tt (set_heap (delete (p_block p) (heap w)) w)
           else Undefined
       | None => Undefined
       end.

Definition ptr_add (p : ptr) (n : nat) : ptr := Ptr (p_block p) (p_off p + n).

(** ** Socket addresses *)

Inductive byte_order : Type := LittleEndian | BigEndian.

Definition bswap16 (x : Z) : Z :=
  Z.lor (Z.shiftl (Z.land x 0xff) 8) (Z.land (Z.shiftr x 8) 0xff).

(** ntohs and htons: the same swap on a little-endian host, nothing on
    a big-endian one; the result is a uint16_t. *)
Definition ntohs (o : byte_order) (x : Z) : Z :=
  match o with
  | LittleEndian => bswap16 x
  | BigEndian => Z.land x 0xffff
  end.
Definition htons : byte_order → Z → Z := ntohs.

(** struct in_addr and struct in6_addr as the bytes they occupy, in
    memory (network) order; an in6_addr is four 32-bit groups. *)
Definition in_addr : Type := (byte * byte * byte * byte)%type.
Definition in6_addr : Type := (in_addr * in_addr * in_addr * in_addr)%type.

Definition in_addr_bytes (a : in_addr) : list byte :=
  let '(b0, b1, b2, b3) := a in [b0; b1; b2; b3].
Definition in6_addr_bytes (a : in6_addr) : list byte :=
  let '(g0, g1, g2, g3) := a in
  in_addr_bytes g0 ++ in_addr_bytes g1 ++ in_addr_bytes g2 ++ in_addr_bytes g3.

Record sockaddr_in : Type := SockaddrIn {
  sin_port : Z;            (* uint16_t, network byte order *)
  sin_addr : in_addr
}.

Record sockaddr_in6 : Type := SockaddrIn6 {
  sin6_port : Z;           (* uint16_t, network byte order *)
  sin6_flowinfo : Z;
  sin6_addr : in6_addr;
  sin6_scope_id : Z
}.

Record sockaddr_un : Type := SockaddrUn {
  sun_path : list byte     (* char sun_path[108] *)
}.

(** What a struct sockaddr* points at: one of the three structures the
    formatter knows, or a bare header of some family with the bytes
    that follow it. *)
Inductive sockaddr : Type :=
| SaIn (sin : sockaddr_in)
| SaIn6 (sin6 : sockaddr_in6)
| SaUn (sun : sockaddr_un)
| SaOther (family : Z) (sa_data : list byte).

Definition sa_family (addr : sockaddr) : Z :=
  match addr with
  | SaIn _ => AF_INET
  | SaIn6 _ => AF_INET6
  | SaUn _ => AF_LOCAL
  | SaOther family _ => family
  end.

(** The casts of printable_address; reading through a pointer cast to
    a structure that is not there is undefined. *)
Definition as_sockaddr_in (addr : sockaddr) : M sockaddr_in :=
  match addr with SaIn sin => mret sin | _ => λ _, Undefined end.
Definition as_sockaddr_in6 (addr : sockaddr) : M sockaddr_in6 :=
  match addr with SaIn6 sin6 => mret sin6 | _ => λ _, Undefined end.
Definition as_sockaddr_un (addr : sockaddr) : M sockaddr_un :=
  match addr with SaUn sun => mret sun | _ => λ _, Undefined end.

(** ** The platform's inet_ntop *)

Definition inet_ntop4 (a : in_addr) : string :=
  let '(b0, b1, b2, b3) := a in
  fmt_d (byte_to_Z b0) +:+ "." +:+ fmt_d (byte_to_Z b1) +:+ "."
    +:+ fmt_d (byte_to_Z b2) +:+ "." +:+ fmt_d (byte_to_Z b3).

Fixpoint words16 (l : list byte) : list Z :=
  match l with
  | hi :: lo :: r => Z.lor (Z.shiftl (byte_to_Z hi) 8) (byte_to_Z lo) :: words16 r
  | _ => []
  end.

(** A run of zero words: where it starts and how long it is. *)
Definition zrun : Type := option (nat * nat).

Definition longer (best cur : zrun) : zrun :=
  match cur, best with
  | None, _ => best
  | Some _, None => cur
  | Some (_, cl), Some (_, bl) => if (bl <? cl)%nat then cur else best
  end.

Fixpoint scan_runs (ws : list Z) (i : nat) (best cur : zrun) : zrun :=
  match ws with
  | [] => longer best cur
  | w :: ws' =>
      if w =? 0
      then scan_runs ws' (S i) best
             (match cur with None => Some (i, 1%nat) | Some (b, l) => Some (b, S l) end)
      else scan_runs ws' (S i) (longer best cur) None
  end.

Definition best_run (ws : list Z) : zrun :=
  match scan_runs ws 0 None None with
  | Some (b, l) => if (l <? 2)%nat then None else Some (b, l)
  | None => None
  end.

Definition in_run (best : zrun) (i : nat) : bool :=
  match best with
  | Some (b, l) => (b <=? i)%nat && (i <? b + l)%nat
  | None => false
  end.

Definition encapsulated_v4 (best : zrun) (all : list Z) (i : nat) : bool :=
  match best with
  | Some (O, l) =>
      (i =? 6)%nat && ((l =? 6)%nat || ((l =? 5)%nat && (nth 5 all 0 =? 0xffff)))
  | _ => false
  end.

Fixpoint emit6 (tail4 : in_addr) (best : zrun) (all ws : list Z) (i : nat) : string :=
  match ws with
  | [] => ""
  | w :: ws' =>
      if in_run best i
      then (if decide (Some i = fst <$> best) then ":" else "")
             +:+ emit6 tail4 best all ws' (S i)
      else (if (i =? 0)%nat then "" else ":")
             +:+ (if encapsulated_v4 best all i then inet_ntop4 tail4
                  else fmt_x w +:+ emit6 tail4 best all ws' (S i))
  end.

Definition inet_ntop6 (a : in6_addr) : string :=
  let ws := words16 (in6_addr_bytes a) in
  let best := best_run ws in
  emit6 (snd a) best ws ws 0
    +:+ (match best with
         | Some (b, l) => if (b + l =? 8)%nat then ":" else ""
         | None => ""
         end).

(** inet_ntop(af, src, dst, cnt) of a POSIX C library, with [src] the
    bytes readable at the source pointer: the text, or [None] for the
    null return (unknown family, or text and terminator longer than
    [cnt]). *)
Definition inet_ntop (af : Z) (src : list byte) (cnt : nat) : option string :=
  let fit (s : string) := if (String.length s <? cnt)%nat then Some s else None in
  if af =? AF_INET then
    match src with
    | b0 :: b1 :: b2 :: b3 :: _ => fit (inet_ntop4 (b0, b1, b2, b3))
    | _ => None
    end
  else if af =? AF_INET6 then
    match src with
    | a0 :: a1 :: a2 :: a3 :: b0 :: b1 :: b2 :: b3 :: c0 :: c1 :: c2 :: c3 :: d0 :: d1 :: d2 :: d3 :: _ =>
        fit (inet_ntop6 ((a0, a1, a2, a3), (b0, b1, b2, b3), (c0, c1, c2, c3), (d0, d1, d2, d3)))
    | _ => None
    end
  else None.

Definition in6_loopback : in6_addr :=
  ((x00, x00, x00, x00), (x00, x00, x00, x00), (x00, x00, x00, x00), (x00, x00, x00, x01)).

(** ** Address formatter: printable_address *)

(** (unsigned int) of a socklen_t *)
Definition to_unsigned_int (z : Z) : Z := z mod 2 ^ 32.

(** char apbuf[INET6_ADDRSTRLEN + 8] *)
Definition apbuf_size : nat := INET6_ADDRSTRLEN + 8.

Section Formatter.
(** The byte order of the host and the inet_ntop that is linked in
    (the C library's, or the Win32 shim of this file). *)
Variable host_order : byte_order.
Variable inet_ntop : Z → list byte → nat → option string.

Definition printable_address (addr : sockaddr) (addrlen : Z) : M ptr :=
  let fallback : M ptr :=
    xstrdup (xsnprintf apbuf_size "<addr family %d>" [ArgD (sa_family addr)]) in
  if sa_family addr =? AF_INET then
    log_assert (sizeof_sockaddr_in <=? to_unsigned_int addrlen);;
    sin ← as_sockaddr_in addr;
    match inet_ntop AF_INET (in_addr_bytes (sin_addr sin)) INET6_ADDRSTRLEN with
    | None => fallback
    | Some abuf =>
        xstrdup (xsnprintf apbuf_size "%s:%d"
                   [ArgS abuf; ArgD (ntohs host_order (sin_port sin))])
    end
  else if sa_family addr =? AF_INET6 then
    log_assert (sizeof_sockaddr_in6 <=? to_unsigned_int addrlen);;
    sin6 ← as_sockaddr_in6 addr;
    match inet_ntop AF_INET (in6_addr_bytes (sin6_addr sin6)) INET6_ADDRSTRLEN with
    | None => fallback
    | Some abuf =>
        xstrdup (xsnprintf apbuf_size "[%s]:%d"
                   [ArgS abuf; ArgD (ntohs host_order (sin6_port sin6))])
    end
  else if sa_family addr =? AF_LOCAL then
    sun ← as_sockaddr_un addr;
    match cstr_bytes (sun_path sun) with
    | Some path => xstrdup (string_of_list_byte path)
    | None => λ _, Undefined
    end
  else fallback.
End Formatter.

(** The string a returned pointer designates. *)
Definition returned_string (r : result ptr) : option string :=
  match r with
  | Returned p w => cstr_at (heap w) p
  | _ => None
  end.

(** ** Endpoint parser: resolve_address_port *)

Definition set_ai_family (v : Z) (h : evutil_addrinfo) : evutil_addrinfo :=
  {| ai_flags := ai_flags h; ai_family := v; ai_socktype := ai_socktype h;
     ai_protocol := ai_protocol h; ai_addrlen := ai_addrlen h; ai_addr := ai_addr h |}.
Definition set_ai_socktype (v : Z) (h : evutil_addrinfo) : evutil_addrinfo :=
  {| ai_flags := ai_flags h; ai_family := ai_family h; ai_socktype := v;
     ai_protocol := ai_protocol h; ai_addrlen := ai_addrlen h; ai_addr := ai_addr h |}.
Definition set_ai_flags (v : Z) (h : evutil_addrinfo) : evutil_addrinfo :=
  {| ai_flags := v; ai_family := ai_family h; ai_socktype := ai_socktype h;
     ai_protocol := ai_protocol h; ai_addrlen := ai_addrlen h; ai_addr := ai_addr h |}.

(** Lines 106-113: the hints handed to the resolver. *)
Definition make_hints (nodns passive : Z) : evutil_addrinfo :=
  let h := addrinfo_zero in
  let h := set_ai_family AF_UNSPEC h in
  let h := set_ai_socktype SOCK_STREAM h in
  let h := set_ai_flags (Z.lor EVUTIL_AI_ADDRCONFIG EVUTIL_AI_NUMERICSERV) h in
  let h := if passive =? 0 then h
           else set_ai_flags (Z.lor (ai_flags h) EVUTIL_AI_PASSIVE) h in
  let h := if nodns =? 0 then h
           else set_ai_flags (Z.lor (ai_flags h) EVUTIL_AI_NUMERICHOST) h in
  h.

(** strchr(p, c): a pointer to the first [c] of the string at [p], or null. *)
Definition strchr_at (p : ptr) (c : byte) : M (option ptr) :=
  λ w, match heap w !! p_block p with
       | Some blk => Returned (ptr_add p <$> strchr (drop (p_off p) blk) c) w
       | None => Undefined
       end.

Definition evutil_freeaddrinfo (ai : list evutil_addrinfo) : M unit :=
  λ w, Returned tt (add_event (Freeaddrinfo ai) w).

Section EndpointParser.
(** The resolver of libevent: from node, service and hints to the
    result code, the list left in *res and errno after the call. *)
Variable evutil_getaddrinfo :
  string → string → evutil_addrinfo → Z * list evutil_addrinfo * Z.
Variable evutil_gai_strerror : Z → string.
Variable strerror : Z → string.

Definition resolver_answer (n s : string) (hints : evutil_addrinfo)
  : M (Z * list evutil_addrinfo * Z) :=
  λ w, Returned (evutil_getaddrinfo n s hints) (add_event (Getaddrinfo n (Some s) hints) w).

Definition call_getaddrinfo (node service : ptr) (hints : evutil_addrinfo)
  : M (Z * list evutil_addrinfo * Z) :=
  n ← read_cstr node;
  s ← read_cstr service;
  resolver_answer n s hints.

(** Lines 106-135: everything after the host/port split. *)
Definition resolve_split (address a portstr : ptr) (nodns passive : Z)
  : M (list evutil_addrinfo) :=
  let ai_hints := make_hints nodns passive in
  '(ai_res, ai, ai_errno) ← call_getaddrinfo a portstr ai_hints;
  free a;;
  if ai_res =? 0 then
    match ai with
    | [] =>
        s ← read_cstr address;
        log_warn "address resolution failed for %s" [ArgS s];;
        mret ai
    | _ :: _ => mret ai
    end
  else
    s ← read_cstr address;
    (if ai_res =? EVUTIL_EAI_SYSTEM
     then log_warn "error resolving %s: %s [%s]"
            [ArgS s; ArgS (evutil_gai_strerror ai_res); ArgS (strerror ai_errno)]
     else log_warn "error resolving %s: %s"
            [ArgS s; ArgS (evutil_gai_strerror ai_res)]);;
    match ai with
    | [] => mret ai
    | _ :: _ => evutil_freeaddrinfo ai;; mret []
    end.

Definition resolve_address_port (address : ptr) (nodns passive : Z)
    (default_port : option ptr) : M (list evutil_addrinfo) :=
  s ← read_cstr address;
  a ← xstrdup s;
  cp ← strchr_at a (char_byte ":");
  match cp with
  | Some cp =>
      store_byte cp NUL;;
      resolve_split address a (ptr_add cp 1) nodns passive
  | None =>
      match default_port with
      | Some dp => resolve_split address a dp nodns passive
      | None =>
          s ← read_cstr address;
          log_debug "error in address %s: port required" [ArgS s];;
          free a;;
          mret []
      end
  end.
End EndpointParser.

(** ** Numeric address codec: the Win32 inet_pton *)

Definition freeaddrinfo : list evutil_addrinfo → M unit := evutil_freeaddrinfo.

Section NumericCodec.
(** The platform's getaddrinfo: from node, service (null here) and
    hints to the result code and the list left in *res. *)
Variable getaddrinfo :
  string → option string → evutil_addrinfo → Z * list evutil_addrinfo.

Definition platform_answer (n : string) (hints : evutil_addrinfo)
  : M (Z * list evutil_addrinfo) :=
  λ w, Returned (getaddrinfo n None hints) (add_event (Getaddrinfo n None hints) w).

(** The while loop of lines 63-67. *)
Fixpoint copy_candidates (dst : ptr) (res : list evutil_addrinfo) : M unit :=
  match res with
  | [] => mret tt
  | r :: res' => memcpy dst (ai_addr r) (ai_addrlen r);; copy_candidates dst res'
  end.

Definition inet_pton (af : Z) (src dst : ptr) : M Z :=
  let hints := set_ai_family af addrinfo_zero in
  s ← read_cstr src;
  '(rc, res) ← platform_answer s hints;
  if rc =? 0 then
    let ressave := res in
    copy_candidates dst res;;
    freeaddrinfo ressave;;
    mret 0
  else
    log_debug ("couldn't resolve host %s" +:+ String "010" "") [ArgS s];;
    mret (-1).
End NumericCodec.

(** ** Resolver context holder *)

Definition set_evdns (r : option evdns_base) (w : world) : world :=
  {| heap := heap w; trace := trace w;
     the_evdns_base := r; evdns_made := S (evdns_made w) |}.

Section ResolverContext.
(** libevent's constructor: what the n-th construction in this
    process yields for an event base and a flag, null on failure. *)
Variable evdns_base_new : event_base → Z → nat → option evdns_base.

Definition get_evdns_base : M (option evdns_base) :=
  λ w, Returned (the_evdns_base w) w.

Definition init_evdns_base (base : event_base) : M Z :=
  λ w, let made := evdns_base_new base 1 (evdns_made w) in
       let w' := set_evdns made w in
       Returned (match the_evdns_base w' with None => -1 | Some _ => 0 end) w'.
End ResolverContext.

(** ** Calls into the module

    A client's view of util-net.cc: it calls the five functions in any
    order and, between calls, does what it likes with its own memory. *)

Inductive call : Type :=
| CallInetPton (af : Z) (src dst : ptr)
| CallResolve (address : ptr) (nodns passive : Z) (default_port : option ptr)
| CallPrintable (addr : sockaddr) (addrlen : Z)
| CallGet
| CallInit (base : event_base)
| ClientMemory (h : gmap positive (list byte)).

Definition is_init (c : call) : bool :=
  match c with CallInit _ => true | _ => false end.

Definition after {A} (r : result A) : option world :=
  match r with Returned _ w => Some w | _ => None end.

Section Program.
Variable host_order : byte_order.
Variable inet_ntop : Z → list byte → nat → option string.
Variable evutil_getaddrinfo :
  string → string → evutil_addrinfo → Z * list evutil_addrinfo * Z.
Variable evutil_gai_strerror : Z → string.
Variable strerror : Z → string.
Variable getaddrinfo :
  string → option string → evutil_addrinfo → Z * list evutil_addrinfo.
Variable evdns_base_new : event_base → Z → nat → option evdns_base.

Definition run_call (c : call) (w : world) : option world :=
  match c with
  | CallInetPton af src dst => after (inet_pton getaddrinfo af src dst w)
  | CallResolve address nodns passive default_port =>
      after (resolve_address_port evutil_getaddrinfo evutil_gai_strerror strerror
               address nodns passive default_port w)
  | CallPrintable addr addrlen =>
      after (printable_address host_order inet_ntop addr addrlen w)
  | CallGet => after (get_evdns_base w)
  | CallInit base => after (init_evdns_base evdns_base_new base w)
  | ClientMemory h => Some (set_heap h w)
  end.

Fixpoint run_calls (cs : list call) (w : world) : option world :=
  match cs with
  | [] => Some w
  | c :: cs' =>
      match run_call c w with
      | Some w' => run_calls cs' w'
      | None => None
      end
  end.
End Program.

(** ** Vocabulary of the statements *)

Definition add_events (evs : list event) (w : world) : world :=
  {| heap := heap w; trace := trace w ++ evs;
     the_evdns_base := the_evdns_base w; evdns_made := evdns_made w |}.

(** A block holding a string and its terminator. *)
Definition cstring_block (s : string) : list byte := list_byte_of_string s ++ [NUL].

(** The world after a fresh block holding [s] has been allocated. *)
Definition with_new_string (s : string) (w : world) : world :=
  set_heap (<[fresh (dom (heap w)) := cstring_block s]> (heap w)) w.

(** Host and port strings that resolve_address_port hands to the
    resolver for the input string [s]: split at the first colon, else
    the whole string with the default port, else nothing. *)
Definition split_address (s : string) (dflt : option string) : option (string * string) :=
  match strchr (cstring_block s) (char_byte ":") with
  | Some i =>
      Some (string_of_list_byte (take i (list_byte_of_string s)),
            string_of_list_byte (drop (S i) (list_byte_of_string s)))
  | None =>
      match dflt with
      | Some d => Some (s, d)
      | None => None
      end
  end.

(** A flag is set in a flag word. *)
Definition flag_set (flags f : Z) : Prop := Z.land flags f = f.

(** The address is one a struct sockaddr* can point at: a bare header
    carries a family other than the three structured ones, in the
    range of sa_family_t, and a sun_path is terminated. *)
Definition sockaddr_wf (addr : sockaddr) : Prop :=
  match addr with
  | SaIn _ | SaIn6 _ => True
  | SaUn sun => is_Some (cstr_bytes (sun_path sun))
  | SaOther f _ => 0 ≤ f < 65536 ∧ f ≠ AF_INET ∧ f ≠ AF_INET6 ∧ f ≠ AF_LOCAL
  end.

(** The length contract that the log_assert of each branch checks. *)
Definition length_ok (addr : sockaddr) (addrlen : Z) : Prop :=
  match addr with
  | SaIn _ => sizeof_sockaddr_in ≤ to_unsigned_int addrlen
  | SaIn6 _ => sizeof_sockaddr_in6 ≤ to_unsigned_int addrlen
  | _ => True
  end.

Definition one_string_world (s : string) : world :=
  set_heap {[ 1%positive := cstring_block s ]} initial_world.

Definition candidate_v4 : evutil_addrinfo :=
  {| ai_flags := 0; ai_family := AF_INET; ai_socktype := SOCK_STREAM; ai_protocol := 6;
     ai_addrlen := 16;
     ai_addr := [x02; x00; x01; xbb; x5d; xb8; xd8; x22;
                 x00; x00; x00; x00; x00; x00; x00; x00] |}.

(** [P] holds of the [n] integers from [z] on. *)
Fixpoint all_below (P : Z → bool) (n : nat) (z : Z) : bool :=
  match n with
  | O => true
  | S n' => P z && all_below P n' (z + 1)
  end.

(** No terminator inside the string. *)
Definition nul_free (s : string) : bool :=
  forallb (λ b, negb (Byte.eqb b NUL)) (list_byte_of_string s).

(** What resolve_address_port returns and logs once the resolver has
    answered [(rc, ai, errno)] for the input string [s]. *)
Definition resolver_verdict (gai_strerror strerror : Z → string) (s : string)
    (ans : Z * list evutil_addrinfo * Z) : list evutil_addrinfo * list event :=
  let '(rc, ai, en) := ans in
  if rc =? 0 then
    match ai with
    | [] => ([], [Log Warn ("address resolution failed for " +:+ s)])
    | _ :: _ => (ai, [])
    end
  else
    ([], Log Warn
           (if rc =? EVUTIL_EAI_SYSTEM
            then "error resolving " +:+ s +:+ ": " +:+ gai_strerror rc
                   +:+ " [" +:+ strerror en +:+ "]"
            else "error resolving " +:+ s +:+ ": " +:+ gai_strerror rc)
         :: match ai with [] => [] | _ :: _ => [Freeaddrinfo ai] end).



(** A call preserves the static resolver handle and the count of
    constructions. *)
Definition static_frame {A} (m : M A) : Prop :=
  ∀ w a w', m w = Returned a w' →
            the_evdns_base w' = the_evdns_base w ∧ evdns_made w' = evdns_made w.

Definition candidate_loopback : evutil_addrinfo :=
  {| ai_flags := 0; ai_family := AF_INET; ai_socktype := SOCK_STREAM; ai_protocol := 6;
     ai_addrlen := 16;
     ai_addr := [x02; x00; x00; x00; x7f; x00; x00; x01;
                 x00; x00; x00; x00; x00; x00; x00; x00] |}.

Definition pton_world : world :=
  set_heap {[ 1%positive := cstring_block "example.com";
              2%positive := replicate 16 xff ]} initial_world.

(** ** Numeric address codec: the Win32 inet_ntop (lines 23-46) *)

Module Win32.

(** NI_NUMERICHOST of ws2def.h. *)
Definition NI_NUMERICHOST : Z := 0x02.

Section Shim.
(** The platform's getnameinfo(sa, salen, host, hostlen, NULL, 0,
    flags): the result code and what it stored in the host buffer, if
    anything. *)
Variable getnameinfo : sockaddr → Z → nat → Z → Z * option string.

(** memcpy(&in.sin_addr, src, sizeof(struct in_addr)) *)
Definition load_in_addr (src : list byte) : M in_addr :=
  match src with
  | b0 :: b1 :: b2 :: b3 :: _ => mret (b0, b1, b2, b3)
  | _ => λ _, Undefined
  end.

(** memcpy(&in.sin6_addr, src, sizeof(struct in_addr6)) *)
Definition load_in6_addr (src : list byte) : M in6_addr :=
  match src with
  | a0 :: a1 :: a2 :: a3 :: b0 :: b1 :: b2 :: b3
      :: c0 :: c1 :: c2 :: c3 :: d0 :: d1 :: d2 :: d3 :: _ =>
      mret ((a0, a1, a2, a3), (b0, b1, b2, b3), (c0, c1, c2, c3), (d0, d1, d2, d3))
  | _ => λ _, Undefined
  end.

(** The call of getnameinfo with [dst] as host buffer; the result code
    is dropped by both callers. *)
Definition call_getnameinfo (sa : sockaddr) (salen : Z) (dst : ptr) (cnt : nat) : M unit :=
  match snd (getnameinfo sa salen cnt NI_NUMERICHOST) with
  | Some text =>
      memcpy dst (list_byte_of_string text ++ [NUL])
        (length (list_byte_of_string text ++ [NUL]))
  | None => mret tt
  end.

Definition inet_ntop (af : Z) (src : list byte) (dst : ptr) (cnt : nat) : M (option ptr) :=
  if af =? AF_INET then
    a ← load_in_addr src;
    let sin := {| sin_port := 0; sin_addr := a |} in
    call_getnameinfo (SaIn sin) sizeof_sockaddr_in dst cnt;;
    mret (Some dst)
  else if af =? AF_INET6 then
    a ← load_in6_addr src;
    let sin6 := {| sin6_port := 0; sin6_flowinfo := 0; sin6_addr := a;
                   sin6_scope_id := 0 |} in
    call_getnameinfo (SaIn6 sin6) sizeof_sockaddr_in6 dst cnt;;
    mret (Some dst)
  else mret None.
End Shim.

End Win32.

(** ** More vocabulary *)

(** The character occurs in the string. *)
Fixpoint has_char (c : ascii) (s : string) : bool :=
  match s with
  | EmptyString => false
  | String x r => Ascii.eqb x c || has_char c r
  end.

Definition is_resolver_call (e : event) : bool :=
  match e with Getaddrinfo _ _ _ => true | _ => false end.

Definition is_log (e : event) : bool :=
  match e with Log _ _ => true | _ => false end.

Definition is_release (e : event) : bool :=
  match e with Freeaddrinfo _ => true | _ => false end.

(** A getnameinfo that does what NI_NUMERICHOST asks of it for IPv4:
    the dotted quad when the buffer can hold it, an error and nothing
    stored otherwise. *)
Definition numeric_getnameinfo (sa : sockaddr) (salen : Z) (cnt : nat) (flags : Z)
  : Z * option string :=
  match sa with
  | SaIn sin =>
      if (String.length (inet_ntop4 (sin_addr sin)) <? cnt)%nat
      then (0, Some (inet_ntop4 (sin_addr sin)))
      else (1, None)
  | _ => (1, None)
  end.

Definition shim_world : world :=
  set_heap {[ 1%positive := replicate 46 xff ]} initial_world.



(** * Properties *)

(** ** Evaluation on concrete inputs *)

Example format_port : format "%s:%d" [ArgS "1.2.3.4"; ArgD 80] = "1.2.3.4:80".
Proof. reflexivity. Qed.

Example fmt_x_ffff : fmt_x 65535 = "ffff".
Proof. reflexivity. Qed.

Example strchr_example : strchr (list_byte_of_string "ab:c:d" ++ [NUL]) (char_byte ":") = Some 2%nat.
Proof. reflexivity. Qed.

Example inet_ntop_v4 : inet_ntop AF_INET [x01; x02; x03; x04] 46 = Some "1.2.3.4".
Proof. reflexivity. Qed.

Example inet_ntop_loopback6 : inet_ntop AF_INET6 (in6_addr_bytes in6_loopback) 46 = Some "::1".
Proof. reflexivity. Qed.

Example inet_ntop_v6_doc :
  inet_ntop AF_INET6
    [x20; x01; x0d; xb8; x00; x00; x00; x00; x00; x00; x00; x00; x00; x02; x00; x01] 46
  = Some "2001:db8::2:1".
Proof. reflexivity. Qed.

Example inet_ntop_v6_mapped :
  inet_ntop AF_INET6
    [x00; x00; x00; x00; x00; x00; x00; x00; x00; x00; xff; xff; xc0; x00; x02; x01] 46
  = Some "::ffff:192.0.2.1".
Proof. reflexivity. Qed.

Example inet_ntop_v6_any :
  inet_ntop AF_INET6 (in6_addr_bytes ((x00, x00, x00, x00), (x00, x00, x00, x00),
                                      (x00, x00, x00, x00), (x00, x00, x00, x00))) 46
  = Some "::".
Proof. reflexivity. Qed.

Example printable_v4 :
  returned_string
    (printable_address LittleEndian inet_ntop
       (SaIn {| sin_port := 0x5000; sin_addr := (x01, x02, x03, x04) |}) 16 initial_world)
  = Some "1.2.3.4:80".
Proof. vm_compute. reflexivity. Qed.

Example printable_v6 :
  returned_string
    (printable_address LittleEndian inet_ntop
       (SaIn6 {| sin6_port := 0x901f; sin6_flowinfo := 0;
                 sin6_addr := in6_loopback; sin6_scope_id := 0 |}) 28 initial_world)
  = Some "[0.0.0.0]:8080".
Proof. vm_compute. reflexivity. Qed.

Example printable_99 :
  returned_string
    (printable_address LittleEndian inet_ntop (SaOther 99 []) 0 initial_world)
  = Some "<addr family 99>".
Proof. vm_compute. reflexivity. Qed.

Example resolve_example :
  resolve_address_port (λ _ _ _, (0, [candidate_v4], 0)) (λ _, "") (λ _, "")
    (Ptr 1 0) 0 0 None (one_string_world "example.com:443")
  = Returned [candidate_v4]
      (add_event (Getaddrinfo "example.com" (Some "443") (make_hints 0 0))
         (one_string_world "example.com:443")).
Proof. vm_compute. reflexivity. Qed.

Example resolve_default_port :
  trace <$> (match resolve_address_port (λ _ _ _, (0, [candidate_v4], 0)) (λ _, "") (λ _, "")
          (Ptr 1 0) 1 0 (Some (Ptr 2 0))
          (set_heap {[ 1%positive := cstring_block "10.0.0.1";
                       2%positive := cstring_block "8080" ]} initial_world)
   with Returned _ w => Some w | _ => None end)
  = Some [Getaddrinfo "10.0.0.1" (Some "8080") (make_hints 1 0)].
Proof. vm_compute. reflexivity. Qed.

Example split_unbracketed_ipv6 :
  split_address "::1:8080" None = Some ("", ":1:8080").
Proof. reflexivity. Qed.

Example split_default_port :
  split_address "localhost" (Some "9050") = Some ("localhost", "9050").
Proof. reflexivity. Qed.

Example printable_short_length :
  printable_address LittleEndian inet_ntop
    (SaIn {| sin_port := 0x5000; sin_addr := (x01, x02, x03, x04) |}) 8 initial_world
  = Aborted.
Proof. reflexivity. Qed.

Example printable_local :
  returned_string
    (printable_address LittleEndian inet_ntop
       (SaUn {| sun_path := cstring_block "/tmp/sock" ++ replicate 98 NUL |}) 110
       initial_world)
  = Some "/tmp/sock".
Proof. vm_compute. reflexivity. Qed.

Example hints_flags_all : ai_flags (make_hints 1 1) = 0x425.
Proof. reflexivity. Qed.

Example hints_flags_none : ai_flags (make_hints 0 0) = 0x420.
Proof. reflexivity. Qed.

Example init_then_get :
  (init_evdns_base (λ _ _ _, Some (EvdnsBase 7)) (EventBase 1) ≫= λ status,
   get_evdns_base ≫= λ h, mret (status, h)) initial_world
  = Returned (0, Some (EvdnsBase 7))
      (set_evdns (Some (EvdnsBase 7)) initial_world).
Proof. reflexivity. Qed.

Example init_fails :
  (init_evdns_base (λ _ _ _, None) (EventBase 1) ≫= λ status,
   get_evdns_base ≫= λ h, mret (status, h)) initial_world
  = Returned (-1, None) (set_evdns None initial_world).
Proof. reflexivity. Qed.

(** ** Strings and numerals *)

Lemma string_app_cons (c : ascii) (s t : string) :
  String c s +:+ t = String c (s +:+ t).
Proof. reflexivity. Qed.

Lemma string_length_app (s t : string) :
  String.length (s +:+ t) = (String.length s + String.length t)%nat.
Proof.
  induction s as [|c s IH]; [reflexivity|].
  rewrite string_app_cons. simpl. now rewrite IH.
Qed.

Lemma string_app_empty (s : string) : s +:+ "" = s.
Proof.
  induction s as [|c s IH]; [reflexivity|].
  rewrite string_app_cons. now rewrite IH.
Qed.

Lemma string_take_all (n : nat) (s : string) :
  (String.length s ≤ n)%nat → string_take n s = s.
Proof.
  revert n; induction s as [|c s IH]; intros [|n] Hn; simpl in *;
    try reflexivity; try lia.
  f_equal. apply IH. lia.
Qed.

Lemma fmt_d_byte_length (b : byte) : (String.length (fmt_d (byte_to_Z b)) ≤ 3)%nat.
Proof. destruct b; vm_compute; lia. Qed.

Lemma all_below_spec (P : Z → bool) (n : nat) (z : Z) :
  all_below P n z = true → ∀ x, z ≤ x < z + Z.of_nat n → P x = true.
Proof.
  revert z; induction n as [|n IH]; intros z Hall x Hx; [lia|].
  simpl in Hall. apply andb_true_iff in Hall as [Hz Hrest].
  destruct (Z.eq_dec x z) as [->|Hne]; [exact Hz|].
  apply (IH (z + 1) Hrest). lia.
Qed.

Lemma fmt_d_u16_length (z : Z) :
  0 ≤ z < 65536 → (String.length (fmt_d z) ≤ 5)%nat.
Proof.
  intros Hz.
  assert (Hall : all_below (λ x, (String.length (fmt_d x) <=? 5)%nat)
                   (Z.to_nat 65536) 0 = true) by (vm_compute; reflexivity).
  apply Nat.leb_le, (all_below_spec _ _ _ Hall). lia.
Qed.

Lemma inet_ntop4_length (a : in_addr) : (String.length (inet_ntop4 a) ≤ 15)%nat.
Proof.
  destruct a as [[[b0 b1] b2] b3]. unfold inet_ntop4.
  rewrite !string_length_app.
  pose proof (fmt_d_byte_length b0). pose proof (fmt_d_byte_length b1).
  pose proof (fmt_d_byte_length b2). pose proof (fmt_d_byte_length b3).
  simpl String.length. lia.
Qed.

Lemma bswap16_range (x : Z) : 0 ≤ bswap16 x < 65536.
Proof.
  unfold bswap16.
  change 0xff with (Z.ones 8). rewrite !Z.land_ones by lia.
  rewrite Z.shiftl_mul_pow2 by lia.
  pose proof (Z.mod_pos_bound x (2 ^ 8) ltac:(lia)) as Ha.
  pose proof (Z.mod_pos_bound (Z.shiftr x 8) (2 ^ 8) ltac:(lia)) as Hb.
  set (a := x mod 2 ^ 8) in *. set (b := Z.shiftr x 8 mod 2 ^ 8) in *.
  assert (Hdisj : Z.land (a * 2 ^ 8) b = 0).
  { apply Z.bits_inj'. intros n Hn. rewrite Z.land_spec, Z.bits_0.
    destruct (Z.ltb_spec n 8).
    - rewrite Z.mul_pow2_bits_low by lia. reflexivity.
    - replace b with (b mod 2 ^ 8) by (apply Z.mod_small; lia).
      rewrite Z.mod_pow2_bits_high by lia. apply andb_false_r. }
  rewrite <- Z.lxor_lor, <- Z.add_nocarry_lxor by exact Hdisj. lia.
Qed.

Lemma ntohs_range (o : byte_order) (x : Z) : 0 ≤ ntohs o x < 65536.
Proof.
  destruct o; simpl; [apply bswap16_range|].
  change 0xffff with (Z.ones 16). rewrite Z.land_ones by lia.
  apply Z.mod_pos_bound. lia.
Qed.

Lemma format_host_port (abuf : string) (p : Z) :
  format "%s:%d" [ArgS abuf; ArgD p] = abuf +:+ ":" +:+ fmt_d p.
Proof. simpl. now rewrite string_app_empty. Qed.

Lemma format_bracket_port (abuf : string) (p : Z) :
  format "[%s]:%d" [ArgS abuf; ArgD p] = "[" +:+ abuf +:+ "]:" +:+ fmt_d p.
Proof. simpl. now rewrite string_app_empty. Qed.

Lemma format_family (f : Z) :
  format "<addr family %d>" [ArgD f] = "<addr family " +:+ fmt_d f +:+ ">".
Proof. reflexivity. Qed.

Lemma xsnprintf_host_port (abuf : string) (p : Z) :
  (String.length abuf < INET6_ADDRSTRLEN)%nat → 0 ≤ p < 65536 →
  xsnprintf apbuf_size "%s:%d" [ArgS abuf; ArgD p] = abuf +:+ ":" +:+ fmt_d p.
Proof.
  intros Ha Hp. unfold xsnprintf. rewrite format_host_port.
  apply string_take_all. rewrite !string_length_app.
  pose proof (fmt_d_u16_length p Hp).
  unfold INET6_ADDRSTRLEN in Ha. change (apbuf_size - 1)%nat with 53%nat.
  simpl String.length. lia.
Qed.

Lemma xsnprintf_bracket_port (abuf : string) (p : Z) :
  (String.length abuf < INET6_ADDRSTRLEN)%nat → 0 ≤ p < 65536 →
  xsnprintf apbuf_size "[%s]:%d" [ArgS abuf; ArgD p]
  = "[" +:+ abuf +:+ "]:" +:+ fmt_d p.
Proof.
  intros Ha Hp. unfold xsnprintf. rewrite format_bracket_port.
  apply string_take_all. rewrite !string_length_app.
  pose proof (fmt_d_u16_length p Hp).
  unfold INET6_ADDRSTRLEN in Ha. change (apbuf_size - 1)%nat with 53%nat.
  simpl String.length. lia.
Qed.

Lemma xsnprintf_family (f : Z) :
  0 ≤ f < 65536 →
  xsnprintf apbuf_size "<addr family %d>" [ArgD f] = "<addr family " +:+ fmt_d f +:+ ">".
Proof.
  intros Hf. unfold xsnprintf. rewrite format_family.
  apply string_take_all. rewrite !string_length_app.
  pose proof (fmt_d_u16_length f Hf).
  change (apbuf_size - 1)%nat with 53%nat.
  simpl String.length. lia.
Qed.

(** ** The monad and the heap *)

Lemma bind_run {A B} (m : M A) (f : A → M B) (w w' : world) (a : A) :
  m w = Returned a w' → (m ≫= f) w = f a w'.
Proof. intros H. unfold mbind, M_bind. now rewrite H. Qed.

Lemma log_assert_run (b : bool) (w : world) :
  b = true → log_assert b w = Returned tt w.
Proof. now intros ->. Qed.

Lemma xstrdup_run (s : string) (w : world) :
  xstrdup s w = Returned (Ptr (fresh (dom (heap w))) 0) (with_new_string s w).
Proof. reflexivity. Qed.

Lemma fresh_block_unused (w : world) : heap w !! fresh (dom (heap w)) = None.
Proof. apply not_elem_of_dom, is_fresh. Qed.

Lemma with_new_string_lookup (s : string) (w : world) :
  heap (with_new_string s w) !! fresh (dom (heap w)) = Some (cstring_block s).
Proof. unfold with_new_string. simpl. apply lookup_insert_eq. Qed.

Lemma with_new_string_frame (s : string) (w : world) (b : positive) :
  is_Some (heap w !! b) → heap (with_new_string s w) !! b = heap w !! b.
Proof.
  intros Hb. unfold with_new_string. simpl. apply lookup_insert_ne.
  intros <-. rewrite fresh_block_unused in Hb. now destruct Hb.
Qed.

(** ** Address formatter *)

Section FormatterFacts.
Variable host_order : byte_order.
Variable ntop : Z → list byte → nat → option string.
Hypothesis ntop_fits :
  ∀ af src cnt s, ntop af src cnt = Some s → (String.length s < cnt)%nat.

Lemma printable_in_ok (sin : sockaddr_in) (addrlen : Z) (w : world) (abuf : string) :
  sizeof_sockaddr_in ≤ to_unsigned_int addrlen →
  ntop AF_INET (in_addr_bytes (sin_addr sin)) INET6_ADDRSTRLEN = Some abuf →
  printable_address host_order ntop (SaIn sin) addrlen w
  = Returned (Ptr (fresh (dom (heap w))) 0)
      (with_new_string (abuf +:+ ":" +:+ fmt_d (ntohs host_order (sin_port sin))) w).
Proof.
  intros Hlen Hn. unfold printable_address.
  change (sa_family (SaIn sin) =? AF_INET) with true. cbv iota.
  rewrite (bind_run _ _ w w tt) by (apply log_assert_run, Z.leb_le, Hlen).
  rewrite (bind_run _ _ w w sin) by reflexivity.
  rewrite Hn, xstrdup_run, xsnprintf_host_port;
    eauto using ntohs_range.
Qed.

Lemma printable_in6_ok (sin6 : sockaddr_in6) (addrlen : Z) (w : world) (abuf : string) :
  sizeof_sockaddr_in6 ≤ to_unsigned_int addrlen →
  ntop AF_INET (in6_addr_bytes (sin6_addr sin6)) INET6_ADDRSTRLEN = Some abuf →
  printable_address host_order ntop (SaIn6 sin6) addrlen w
  = Returned (Ptr (fresh (dom (heap w))) 0)
      (with_new_string ("[" +:+ abuf +:+ "]:" +:+ fmt_d (ntohs host_order (sin6_port sin6))) w).
Proof.
  intros Hlen Hn. unfold printable_address.
  change (sa_family (SaIn6 sin6) =? AF_INET) with false.
  change (sa_family (SaIn6 sin6) =? AF_INET6) with true. cbv iota.
  rewrite (bind_run _ _ w w tt) by (apply log_assert_run, Z.leb_le, Hlen).
  rewrite (bind_run _ _ w w sin6) by reflexivity.
  rewrite Hn, xstrdup_run, xsnprintf_bracket_port;
    eauto using ntohs_range.
Qed.

Lemma printable_convert_fails (addr : sockaddr) (addrlen : Z) (w : world) :
  length_ok addr addrlen →
  match addr with
  | SaIn sin => ntop AF_INET (in_addr_bytes (sin_addr sin)) INET6_ADDRSTRLEN = None
  | SaIn6 sin6 => ntop AF_INET (in6_addr_bytes (sin6_addr sin6)) INET6_ADDRSTRLEN = None
  | _ => False
  end →
  printable_address host_order ntop addr addrlen w
  = Returned (Ptr (fresh (dom (heap w))) 0)
      (with_new_string ("<addr family " +:+ fmt_d (sa_family addr) +:+ ">") w).
Proof.
  intros Hlen Hn. unfold printable_address.
  destruct addr as [sin|sin6| |]; try contradiction; simpl in Hlen.
  - change (sa_family (SaIn sin) =? AF_INET) with true. cbv iota.
    rewrite (bind_run _ _ w w tt) by (apply log_assert_run, Z.leb_le, Hlen).
    rewrite (bind_run _ _ w w sin) by reflexivity.
    rewrite Hn, xstrdup_run. reflexivity.
  - change (sa_family (SaIn6 sin6) =? AF_INET) with false.
    change (sa_family (SaIn6 sin6) =? AF_INET6) with true. cbv iota.
    rewrite (bind_run _ _ w w tt) by (apply log_assert_run, Z.leb_le, Hlen).
    rewrite (bind_run _ _ w w sin6) by reflexivity.
    rewrite Hn, xstrdup_run. reflexivity.
Qed.

Lemma printable_other_family (addr : sockaddr) (addrlen : Z) (w : world) :
  0 ≤ sa_family addr < 65536 →
  sa_family addr ≠ AF_INET → sa_family addr ≠ AF_INET6 → sa_family addr ≠ AF_LOCAL →
  printable_address host_order ntop addr addrlen w
  = Returned (Ptr (fresh (dom (heap w))) 0)
      (with_new_string ("<addr family " +:+ fmt_d (sa_family addr) +:+ ">") w).
Proof.
  intros Hr H4 H6 Hl. unfold printable_address.
  apply Z.eqb_neq in H4, H6, Hl. rewrite H4, H6, Hl.
  rewrite xstrdup_run, xsnprintf_family by exact Hr. reflexivity.
Qed.

Lemma printable_un_ok (sun : sockaddr_un) (addrlen : Z) (w : world) (path : list byte) :
  cstr_bytes (sun_path sun) = Some path →
  printable_address host_order ntop (SaUn sun) addrlen w
  = Returned (Ptr (fresh (dom (heap w))) 0)
      (with_new_string (string_of_list_byte path) w).
Proof.
  intros Hp. unfold printable_address.
  change (sa_family (SaUn sun) =? AF_INET) with false.
  change (sa_family (SaUn sun) =? AF_INET6) with false.
  change (sa_family (SaUn sun) =? AF_LOCAL) with true. cbv iota.
  rewrite (bind_run _ _ w w sun) by reflexivity.
  now rewrite Hp.
Qed.

Lemma printable_total (addr : sockaddr) (addrlen : Z) (w : world) :
  sockaddr_wf addr → length_ok addr addrlen →
  ∃ s, printable_address host_order ntop addr addrlen w
       = Returned (Ptr (fresh (dom (heap w))) 0) (with_new_string s w).
Proof.
  intros Hwf Hlen. destruct addr as [sin|sin6|sun|f data]; simpl in Hwf, Hlen.
  - destruct (ntop AF_INET (in_addr_bytes (sin_addr sin)) INET6_ADDRSTRLEN) eqn:Hn.
    + eexists. eapply printable_in_ok; eauto.
    + eexists. eapply printable_convert_fails; eauto.
  - destruct (ntop AF_INET (in6_addr_bytes (sin6_addr sin6)) INET6_ADDRSTRLEN) eqn:Hn.
    + eexists. eapply printable_in6_ok; eauto.
    + eexists. eapply printable_convert_fails; eauto.
  - destruct Hwf as [path Hp]. eexists. eapply printable_un_ok; eauto.
  - destruct Hwf as (Hr & H4 & H6 & Hl). eexists.
    eapply printable_other_family; eauto.
Qed.
End FormatterFacts.

(** ** Strings in memory *)

Lemma list_byte_of_string_cons (c : ascii) (s : string) :
  list_byte_of_string (String c s) = byte_of_ascii c :: list_byte_of_string s.
Proof. reflexivity. Qed.

Lemma list_byte_of_string_app (s t : string) :
  list_byte_of_string (s +:+ t) = list_byte_of_string s ++ list_byte_of_string t.
Proof.
  induction s as [|c s IH]; [reflexivity|].
  rewrite string_app_cons, !list_byte_of_string_cons, IH. reflexivity.
Qed.

Lemma nul_free_app (s t : string) :
  nul_free (s +:+ t) = nul_free s && nul_free t.
Proof. unfold nul_free. now rewrite list_byte_of_string_app, forallb_app. Qed.

Lemma cstr_bytes_terminated (l rest : list byte) :
  forallb (λ b, negb (Byte.eqb b NUL)) l = true →
  cstr_bytes (l ++ NUL :: rest) = Some l.
Proof.
  induction l as [|b l IH]; intros Hl; [reflexivity|].
  simpl in Hl. apply andb_true_iff in Hl as [Hb Hl].
  apply negb_true_iff in Hb. simpl. rewrite Hb, (IH Hl). reflexivity.
Qed.

Lemma cstr_bytes_inv (blk l : list byte) :
  cstr_bytes blk = Some l →
  forallb (λ b, negb (Byte.eqb b NUL)) l = true ∧ ∃ rest, blk = l ++ NUL :: rest.
Proof.
  revert l; induction blk as [|b blk IH]; intros l H; [discriminate|].
  simpl in H. destruct (Byte.eqb b NUL) eqn:Hb.
  - injection H as <-. split; [reflexivity|]. exists blk.
    apply Byte.byte_dec_bl in Hb. now subst b.
  - destruct (cstr_bytes blk) as [l'|]; [|discriminate]. injection H as <-.
    destruct (IH l' eq_refl) as [Hl' [rest ->]]. split.
    + simpl. now rewrite Hb, Hl'.
    + now exists rest.
Qed.

Lemma cstr_at_nul_free (h : gmap positive (list byte)) (p : ptr) (s : string) :
  cstr_at h p = Some s → nul_free s = true.
Proof.
  unfold cstr_at. destruct (h !! p_block p) as [blk|]; [|discriminate]. simpl.
  destruct (cstr_bytes (drop (p_off p) blk)) as [l|] eqn:Hl; [|discriminate].
  simpl. intros [= <-]. unfold nul_free.
  rewrite list_byte_of_string_of_list_byte. now apply cstr_bytes_inv in Hl.
Qed.

Lemma cstr_bytes_block (s : string) :
  nul_free s = true → cstr_bytes (cstring_block s) = Some (list_byte_of_string s).
Proof. intros H. now apply cstr_bytes_terminated. Qed.

Lemma cstr_at_new_string (s : string) (w : world) :
  nul_free s = true →
  cstr_at (heap (with_new_string s w)) (Ptr (fresh (dom (heap w))) 0) = Some s.
Proof.
  intros H. unfold cstr_at. simpl p_block. rewrite with_new_string_lookup.
  simpl. rewrite drop_0, cstr_bytes_block by exact H.
  simpl. now rewrite string_of_list_byte_of_string.
Qed.

Lemma fmt_d_byte_nul_free (b : byte) : nul_free (fmt_d (byte_to_Z b)) = true.
Proof. destruct b; vm_compute; reflexivity. Qed.

Lemma fmt_d_u16_nul_free (z : Z) : 0 ≤ z < 65536 → nul_free (fmt_d z) = true.
Proof.
  intros Hz.
  assert (Hall : all_below (λ x, nul_free (fmt_d x)) (Z.to_nat 65536) 0 = true)
    by (vm_compute; reflexivity).
  apply (all_below_spec _ _ _ Hall). lia.
Qed.

Lemma inet_ntop4_nul_free (a : in_addr) : nul_free (inet_ntop4 a) = true.
Proof.
  destruct a as [[[b0 b1] b2] b3]. unfold inet_ntop4.
  rewrite !nul_free_app, !fmt_d_byte_nul_free. reflexivity.
Qed.

Lemma inet_ntop_fits (af : Z) (src : list byte) (cnt : nat) (s : string) :
  inet_ntop af src cnt = Some s → (String.length s < cnt)%nat.
Proof.
  unfold inet_ntop. intros H.
  assert (Hfit : ∀ t, (if (String.length t <? cnt)%nat then Some t else None) = Some s →
                      (String.length s < cnt)%nat).
  { intros t Ht. destruct (Nat.ltb_spec (String.length t) cnt); [|discriminate].
    now injection Ht as <-. }
  destruct (af =? AF_INET).
  - destruct src as [|b0 [|b1 [|b2 [|b3 r]]]]; try discriminate. eapply Hfit, H.
  - destruct (af =? AF_INET6); [|discriminate].
    repeat (destruct src as [|? src]; [discriminate|]).
    eapply Hfit, H.
Qed.

Lemma inet_ntop_in_addr (a : in_addr) (rest : list byte) :
  inet_ntop AF_INET (in_addr_bytes a ++ rest) INET6_ADDRSTRLEN = Some (inet_ntop4 a).
Proof.
  destruct a as [[[b0 b1] b2] b3]. unfold inet_ntop.
  change (AF_INET =? AF_INET) with true. simpl in_addr_bytes. simpl app.
  cbv beta iota zeta.
  pose proof (inet_ntop4_length (b0, b1, b2, b3)) as Hlen.
  destruct (Nat.ltb_spec (String.length (inet_ntop4 (b0, b1, b2, b3))) INET6_ADDRSTRLEN)
    as [_|Hge]; [reflexivity|].
  unfold INET6_ADDRSTRLEN in Hge. lia.
Qed.

Lemma ntohs_htons (o : byte_order) (p : Z) : 0 ≤ p < 65536 → ntohs o (htons o p) = p.
Proof.
  intros Hp.
  assert (Hall : all_below (λ x, (bswap16 (bswap16 x) =? x) && (Z.land (Z.land x 0xffff) 0xffff =? x))
                   (Z.to_nat 65536) 0 = true) by (vm_compute; reflexivity).
  pose proof (all_below_spec _ _ _ Hall p ltac:(lia)) as H.
  apply andb_true_iff in H as [Hs Hb]. apply Z.eqb_eq in Hs, Hb.
  destruct o; assumption.
Qed.

(** C2: for an IPv4 socket address whose length passes the assertion,
    printable_address returns a fresh string holding the dotted quad of
    the four address bytes, a colon and the port in host byte order;
    for 1.2.3.4 and a port field encoding 80 that is "1.2.3.4:80". *)
Theorem printable_address_ipv4 (o : byte_order) (sin : sockaddr_in) (addrlen : Z) (w : world) :
  sizeof_sockaddr_in ≤ to_unsigned_int addrlen →
  let text := inet_ntop4 (sin_addr sin) +:+ ":" +:+ fmt_d (ntohs o (sin_port sin)) in
  let p := Ptr (fresh (dom (heap w))) 0 in
  printable_address o inet_ntop (SaIn sin) addrlen w = Returned p (with_new_string text w)
  ∧ cstr_at (heap (with_new_string text w)) p = Some text
  ∧ (sin_addr sin = (x01, x02, x03, x04) → sin_port sin = htons o 80 →
     text = "1.2.3.4:80").
Proof.
  intros Hlen text p. split; [|split].
  - apply printable_in_ok; [exact inet_ntop_fits | exact Hlen |].
    rewrite <- (app_nil_r (in_addr_bytes _)). apply inet_ntop_in_addr.
  - apply cstr_at_new_string. unfold text.
    rewrite !nul_free_app, inet_ntop4_nul_free, fmt_d_u16_nul_free
      by apply ntohs_range.
    reflexivity.
  - intros Ha Hp. unfold text. rewrite Ha, Hp, ntohs_htons by lia. reflexivity.
Qed.

Lemma printable_address_ipv4_witness :
  printable_address LittleEndian inet_ntop
    (SaIn {| sin_port := 0x5000; sin_addr := (x01, x02, x03, x04) |}) 16
    (one_string_world "x")
  = Returned (Ptr 2 0) (with_new_string "1.2.3.4:80" (one_string_world "x")).
Proof.
  refine (proj1 (printable_address_ipv4 LittleEndian
            {| sin_port := 0x5000; sin_addr := (x01, x02, x03, x04) |} 16
            (one_string_world "x") _)).
  vm_compute. discriminate.
Defined.

(** C1, as the code behaves: in the AF_INET6 branch inet_ntop is called
    with AF_INET, so the text between the brackets is the dotted quad
    of the first four of the sixteen address bytes; for ::1 and a port
    field encoding 8080 the result is "[0.0.0.0]:8080", not
    "[::1]:8080". *)
Theorem printable_address_ipv6_as_ipv4 (o : byte_order) (sin6 : sockaddr_in6)
    (addrlen : Z) (w : world) :
  sizeof_sockaddr_in6 ≤ to_unsigned_int addrlen →
  let text := "[" +:+ inet_ntop4 (fst (fst (fst (sin6_addr sin6)))) +:+ "]:"
                +:+ fmt_d (ntohs o (sin6_port sin6)) in
  let p := Ptr (fresh (dom (heap w))) 0 in
  printable_address o inet_ntop (SaIn6 sin6) addrlen w = Returned p (with_new_string text w)
  ∧ cstr_at (heap (with_new_string text w)) p = Some text
  ∧ (sin6_addr sin6 = in6_loopback → sin6_port sin6 = htons o 8080 →
     text = "[0.0.0.0]:8080" ∧ text ≠ "[::1]:8080"
     ∧ inet_ntop AF_INET6 (in6_addr_bytes (sin6_addr sin6)) INET6_ADDRSTRLEN = Some "::1").
Proof.
  intros Hlen text p. split; [|split].
  - apply printable_in6_ok; [exact inet_ntop_fits | exact Hlen |].
    destruct (sin6_addr sin6) as [[[g0 g1] g2] g3]. apply inet_ntop_in_addr.
  - apply cstr_at_new_string. unfold text.
    rewrite !nul_free_app, inet_ntop4_nul_free, fmt_d_u16_nul_free
      by apply ntohs_range.
    reflexivity.
  - intros Ha Hp. unfold text. rewrite Ha, Hp, ntohs_htons by lia.
    split; [reflexivity | split; [discriminate | reflexivity]].
Qed.

Lemma printable_address_ipv6_as_ipv4_witness :
  printable_address LittleEndian inet_ntop
    (SaIn6 {| sin6_port := 0x901f; sin6_flowinfo := 0;
              sin6_addr := in6_loopback; sin6_scope_id := 0 |}) 28
    (one_string_world "x")
  = Returned (Ptr 2 0) (with_new_string "[0.0.0.0]:8080" (one_string_world "x")).
Proof.
  refine (proj1 (printable_address_ipv6_as_ipv4 LittleEndian
            {| sin6_port := 0x901f; sin6_flowinfo := 0;
               sin6_addr := in6_loopback; sin6_scope_id := 0 |} 28
            (one_string_world "x") _)).
  vm_compute. discriminate.
Defined.

(** C5: for a socket address of a family other than AF_INET, AF_INET6
    and AF_LOCAL, whatever the length argument, printable_address
    returns a fresh string holding exactly "<addr family N>" with N the
    family in decimal; when inet_ntop fails in the IPv4 or IPv6 branch
    the same text is produced; and for every address that meets the
    length contract some string is returned in a fresh block. *)
Theorem printable_address_fallback (o : byte_order)
    (ntop : Z → list byte → nat → option string)
    (addr : sockaddr) (addrlen : Z) (w : world) :
  (∀ af src cnt s, ntop af src cnt = Some s → (String.length s < cnt)%nat) →
  sockaddr_wf addr →
  let text := "<addr family " +:+ fmt_d (sa_family addr) +:+ ">" in
  let p := Ptr (fresh (dom (heap w))) 0 in
  heap w !! p_block p = None
  ∧ (sa_family addr ≠ AF_INET → sa_family addr ≠ AF_INET6 → sa_family addr ≠ AF_LOCAL →
     printable_address o ntop addr addrlen w = Returned p (with_new_string text w)
     ∧ cstr_at (heap (with_new_string text w)) p = Some text)
  ∧ (length_ok addr addrlen →
     match addr with
     | SaIn sin => ntop AF_INET (in_addr_bytes (sin_addr sin)) INET6_ADDRSTRLEN = None
     | SaIn6 sin6 => ntop AF_INET (in6_addr_bytes (sin6_addr sin6)) INET6_ADDRSTRLEN = None
     | _ => False
     end →
     printable_address o ntop addr addrlen w = Returned p (with_new_string text w))
  ∧ (length_ok addr addrlen →
     ∃ s, printable_address o ntop addr addrlen w = Returned p (with_new_string s w)).
Proof.
  intros Hfits Hwf text p. split; [apply fresh_block_unused|]. split; [|split].
  - intros H4 H6 Hl.
    assert (Hr : 0 ≤ sa_family addr < 65536).
    { destruct addr; simpl in *; try congruence. tauto. }
    split; [now apply printable_other_family|].
    apply cstr_at_new_string. unfold text.
    rewrite !nul_free_app, fmt_d_u16_nul_free by exact Hr. reflexivity.
  - intros Hlen Hn. now apply printable_convert_fails.
  - intros Hlen. now apply printable_total.
Qed.

Lemma printable_address_fallback_witness :
  printable_address LittleEndian inet_ntop (SaOther 99 []) 0 (one_string_world "x")
  = Returned (Ptr 2 0) (with_new_string "<addr family 99>" (one_string_world "x")).
Proof.
  refine (proj1 (proj1 (proj2 (printable_address_fallback LittleEndian inet_ntop
            (SaOther 99 []) 0 (one_string_world "x") inet_ntop_fits _)) _ _ _)).
  - vm_compute. intuition discriminate.
  - vm_compute. discriminate.
  - vm_compute. discriminate.
  - vm_compute. discriminate.
Defined.

(** ** Endpoint parser *)

Lemma set_heap_id (w : world) : set_heap (heap w) w = w.
Proof. now destruct w. Qed.


Lemma world_eq (w w' : world) :
  heap w = heap w' → trace w = trace w' →
  the_evdns_base w = the_evdns_base w' → evdns_made w = evdns_made w' → w = w'.
Proof. destruct w, w'. simpl. now intros -> -> -> ->. Qed.

Lemma log_at_run (sev : severity) (f : string) (args : list fmt_arg) (w : world) :
  log_at sev f args w = Returned tt (add_events [Log sev (format f args)] w).
Proof. reflexivity. Qed.

Lemma free_run (b : positive) (w : world) (blk : list byte) :
  heap w !! b = Some blk →
  free (Ptr b 0) w = Returned tt (set_heap (delete b (heap w)) w).
Proof. intros H. unfold free. simpl. now rewrite H. Qed.

Lemma read_cstr_run (p : ptr) (w : world) (s : string) :
  cstr_at (heap w) p = Some s → read_cstr p w = Returned s w.
Proof. unfold read_cstr. now intros ->. Qed.

Lemma strchr_lookup (l : list byte) (c : byte) (i : nat) :
  strchr l c = Some i → l !! i = Some c.
Proof.
  revert i; induction l as [|b l IH]; intros i H; [discriminate|].
  simpl in H. destruct (Byte.eqb b c) eqn:Hc.
  - injection H as <-. apply Byte.byte_dec_bl in Hc. now subst.
  - destruct (Byte.eqb b NUL); [discriminate|].
    destruct (strchr l c) as [j|]; [|discriminate]. injection H as <-.
    now apply IH.
Qed.

Lemma strchr_truncate (l : list byte) (c : byte) (i : nat) :
  strchr l c = Some i → cstr_bytes (<[i:=NUL]> l) = Some (take i l).
Proof.
  revert i; induction l as [|b l IH]; intros i H; [discriminate|].
  simpl in H. destruct (Byte.eqb b c) eqn:Hc.
  - injection H as <-. reflexivity.
  - destruct (Byte.eqb b NUL) eqn:Hn; [discriminate|].
    destruct (strchr l c) as [j|]; [|discriminate]. injection H as <-.
    simpl. now rewrite Hn, (IH j eq_refl).
Qed.

Lemma strchr_absent (l : list byte) (c : byte) :
  c ∉ l → strchr l c = None.
Proof.
  induction l as [|b l IH]; intros Hc; [reflexivity|].
  apply not_elem_of_cons in Hc as [Hne Hc]. simpl.
  destruct (Byte.eqb b c) eqn:Hb.
  - apply Byte.byte_dec_bl in Hb. congruence.
  - destruct (Byte.eqb b NUL); [reflexivity|]. now rewrite IH.
Qed.

Lemma strchr_block_lt (s : string) (c : byte) (i : nat) :
  c ≠ NUL → strchr (cstring_block s) c = Some i →
  (i < length (list_byte_of_string s))%nat.
Proof.
  intros Hc H. apply strchr_lookup in H. unfold cstring_block in H.
  destruct (Nat.lt_ge_cases i (length (list_byte_of_string s))) as [|Hge]; [assumption|].
  rewrite lookup_app_r in H by exact Hge.
  destruct (i - length (list_byte_of_string s))%nat as [|k]; simpl in H.
  - injection H as <-. now contradiction Hc.
  - destruct k; discriminate.
Qed.

Lemma forallb_drop {A} (P : A → bool) (n : nat) (l : list A) :
  forallb P l = true → forallb P (drop n l) = true.
Proof.
  revert n; induction l as [|x l IH]; intros [|n] H; simpl in *; try reflexivity;
    try assumption.
  apply andb_true_iff in H as [_ H]. now apply IH.
Qed.

(** The two strings the resolver reads after the colon has been
    overwritten in the duplicate. *)
Lemma split_block (s : string) (i : nat) :
  nul_free s = true →
  strchr (cstring_block s) (char_byte ":") = Some i →
  cstr_bytes (<[i:=NUL]> (cstring_block s)) = Some (take i (list_byte_of_string s))
  ∧ cstr_bytes (drop (i + 1) (<[i:=NUL]> (cstring_block s)))
    = Some (drop (S i) (list_byte_of_string s)).
Proof.
  intros Hs Hi.
  assert (Hlt : (i < length (list_byte_of_string s))%nat)
    by (eapply strchr_block_lt; [|exact Hi]; discriminate).
  split.
  - rewrite (strchr_truncate _ _ _ Hi). unfold cstring_block.
    now rewrite take_app_le by lia.
  - rewrite drop_insert_lt by lia. unfold cstring_block.
    rewrite drop_app_le by lia. replace (i + 1)%nat with (S i) by lia.
    apply cstr_bytes_terminated, forallb_drop, Hs.
Qed.

Lemma format_port_required (s : string) :
  format "error in address %s: port required" [ArgS s]
  = "error in address " +:+ s +:+ ": port required".
Proof. reflexivity. Qed.

Lemma format_resolution_failed (s : string) :
  format "address resolution failed for %s" [ArgS s]
  = "address resolution failed for " +:+ s.
Proof. simpl. now rewrite string_app_empty. Qed.

Lemma format_error_system (s x y : string) :
  format "error resolving %s: %s [%s]" [ArgS s; ArgS x; ArgS y]
  = "error resolving " +:+ s +:+ ": " +:+ x +:+ " [" +:+ y +:+ "]".
Proof. reflexivity. Qed.

Lemma format_error_resolver (s x : string) :
  format "error resolving %s: %s" [ArgS s; ArgS x]
  = "error resolving " +:+ s +:+ ": " +:+ x.
Proof. simpl. now rewrite string_app_empty. Qed.

Section EndpointParserFacts.
Variable gai : string → string → evutil_addrinfo → Z * list evutil_addrinfo * Z.
Variable gai_strerror : Z → string.
Variable strerror : Z → string.

Lemma resolve_split_run (address portstr : ptr) (b : positive) (nodns passive : Z)
    (w : world) (s host port : string) :
  cstr_at (heap w) (Ptr b 0) = Some host →
  cstr_at (heap w) portstr = Some port →
  cstr_at (delete b (heap w)) address = Some s →
  let hints := make_hints nodns passive in
  let v := resolver_verdict gai_strerror strerror s (gai host port hints) in
  resolve_split gai gai_strerror strerror address (Ptr b 0) portstr nodns passive w
  = Returned (fst v)
      (add_events (Getaddrinfo host (Some port) hints :: snd v)
         (set_heap (delete b (heap w)) w)).
Proof.
  intros Hhost Hport Haddr hints v. subst v. unfold resolve_split, call_getaddrinfo.
  fold hints.
  rewrite (bind_run _ _ w (add_event (Getaddrinfo host (Some port) hints) w)
             (gai host port hints)).
  2:{ rewrite (bind_run _ _ _ _ _ (read_cstr_run _ _ _ Hhost)).
      rewrite (bind_run _ _ _ _ _ (read_cstr_run _ _ _ Hport)). reflexivity. }
  destruct (gai host port hints) as [[rc ai] en].
  set (w1 := add_event (Getaddrinfo host (Some port) hints) w).
  assert (Hfree : free (Ptr b 0) w1 = Returned tt (set_heap (delete b (heap w)) w1)).
  { unfold free. simpl. unfold cstr_at in Hhost. simpl in Hhost.
    destruct (heap w !! b); [reflexivity | discriminate]. }
  rewrite (bind_run _ _ _ _ _ Hfree).
  set (w2 := set_heap (delete b (heap w)) w1).
  assert (Hread : read_cstr address w2 = Returned s w2)
    by (apply read_cstr_run; exact Haddr).
  unfold resolver_verdict.
  destruct (rc =? 0).
  - destruct ai as [|r ai].
    + rewrite (bind_run _ _ _ _ _ Hread).
      unfold log_warn, log_at, mbind, M_bind, mret, M_ret.
      rewrite format_resolution_failed. simpl fst. simpl snd.
      f_equal. unfold add_events, add_event, set_heap, w2, w1. simpl.
      now rewrite <- app_assoc.
    + reflexivity.
  - rewrite (bind_run _ _ _ _ _ Hread).
    destruct (rc =? EVUTIL_EAI_SYSTEM).
    + unfold log_warn, log_at, evutil_freeaddrinfo, mbind, M_bind, mret, M_ret.
      rewrite format_error_system.
      destruct ai as [|r ai]; simpl fst; simpl snd; f_equal;
        unfold add_events, add_event, set_heap, w2, w1; simpl;
        now rewrite <- !app_assoc.
    + unfold log_warn, log_at, evutil_freeaddrinfo, mbind, M_bind, mret, M_ret.
      rewrite format_error_resolver.
      destruct ai as [|r ai]; simpl fst; simpl snd; f_equal;
        unfold add_events, add_event, set_heap, w2, w1; simpl;
        now rewrite <- !app_assoc.
Qed.
Lemma cstr_at_frame (p : ptr) (w : world) (s t : string) :
  cstr_at (heap w) p = Some s → cstr_at (heap (with_new_string t w)) p = Some s.
Proof.
  intros H. unfold cstr_at in *.
  rewrite with_new_string_frame; [exact H|].
  destruct (heap w !! p_block p); [eauto | discriminate].
Qed.

Lemma heap_restore (w : world) (x : list byte) :
  delete (fresh (dom (heap w))) (<[fresh (dom (heap w)) := x]> (heap w)) = heap w.
Proof. apply delete_insert_id, fresh_block_unused. Qed.

(** The whole function on a readable input: what it returns and the
    events it adds; the heap is as before the call. *)
Lemma resolve_address_port_run (address : ptr) (nodns passive : Z)
    (default_port : option ptr) (w : world) (s : string) :
  cstr_at (heap w) address = Some s →
  (∀ p, default_port = Some p → is_Some (cstr_at (heap w) p)) →
  resolve_address_port gai gai_strerror strerror address nodns passive default_port w
  = match split_address s (default_port ≫= cstr_at (heap w)) with
    | None =>
        Returned [] (add_events
          [Log Debug ("error in address " +:+ s +:+ ": port required")] w)
    | Some (host, port) =>
        let hints := make_hints nodns passive in
        let v := resolver_verdict gai_strerror strerror s (gai host port hints) in
        Returned (fst v) (add_events (Getaddrinfo host (Some port) hints :: snd v) w)
    end.
Proof.
  intros Hs Hd. unfold resolve_address_port.
  pose proof (cstr_at_nul_free _ _ _ Hs) as Hnf.
  rewrite (bind_run _ _ _ _ _ (read_cstr_run _ _ _ Hs)).
  rewrite (bind_run _ _ _ _ _ (xstrdup_run s w)).
  set (b := fresh (dom (heap w))). set (w1 := with_new_string s w).
  assert (Hb1 : heap w1 !! b = Some (cstring_block s))
    by apply with_new_string_lookup.
  assert (Hchr : strchr_at (Ptr b 0) (char_byte ":") w1
                 = Returned (ptr_add (Ptr b 0) <$> strchr (cstring_block s) (char_byte ":")) w1).
  { unfold strchr_at. simpl p_block. rewrite Hb1. reflexivity. }
  rewrite (bind_run _ _ _ _ _ Hchr). unfold split_address.
  destruct (strchr (cstring_block s) (char_byte ":")) as [i|] eqn:Hi.
  - (* a colon at offset i: truncate the duplicate there *)
    change (ptr_add (Ptr b 0) <$> Some i) with (Some (Ptr b i)). cbv iota.
    destruct (split_block s i Hnf Hi) as [Hhost Hport].
    set (blk2 := <[i:=NUL]> (cstring_block s)) in *.
    set (w2 := set_heap (<[b := blk2]> (heap w1)) w1).
    assert (Hstore : store_byte (Ptr b i) NUL w1 = Returned tt w2).
    { unfold store_byte. simpl p_block. simpl p_off. rewrite Hb1.
      apply strchr_lookup, lookup_lt_Some in Hi.
      destruct (decide (i < length (cstring_block s))%nat); [reflexivity | lia]. }
    rewrite (bind_run _ _ _ _ _ Hstore).
    assert (Hb2 : heap w2 !! b = Some blk2) by apply lookup_insert_eq.
    assert (Hdel : delete b (heap w2) = heap w).
    { unfold w2, w1, with_new_string. simpl. fold b.
      rewrite insert_insert_eq. apply heap_restore. }
    unfold ptr_add. simpl p_block. simpl p_off.
    rewrite (resolve_split_run address (Ptr b (i + 1)) b nodns passive w2 s
               (string_of_list_byte (take i (list_byte_of_string s)))
               (string_of_list_byte (drop (S i) (list_byte_of_string s)))).
    + rewrite Hdel. unfold w2, w1, with_new_string.
      rewrite <- (set_heap_id w) at 5. reflexivity.
    + unfold cstr_at. simpl p_block. simpl p_off. rewrite Hb2. simpl.
      rewrite drop_0, Hhost. reflexivity.
    + unfold cstr_at. simpl p_block. simpl p_off. rewrite Hb2. simpl.
      rewrite Hport. reflexivity.
    + rewrite Hdel. exact Hs.
  - change (ptr_add (Ptr b 0) <$> None) with (@None ptr). cbv iota.
    assert (Hdel : delete b (heap w1) = heap w) by apply heap_restore.
    destruct default_port as [dp|].
    + (* no colon, the default port is the service string *)
      destruct (Hd dp eq_refl) as [d Hdp]. simpl. rewrite Hdp.
      rewrite (resolve_split_run address dp b nodns passive w1 s s d).
      * rewrite Hdel. unfold w1, with_new_string.
        rewrite <- (set_heap_id w) at 5. reflexivity.
      * now apply cstr_at_new_string.
      * now apply cstr_at_frame.
      * rewrite Hdel. exact Hs.
    + (* no colon, no default port *)
      simpl.
      rewrite (bind_run _ _ _ _ _ (read_cstr_run _ _ _ (cstr_at_frame _ _ _ s Hs))).
      fold w1. unfold log_debug.
      rewrite (bind_run _ _ _ _ _ (log_at_run _ _ _ _)), format_port_required.
      erewrite bind_run by (eapply free_run; exact Hb1).
      unfold mret, M_ret. f_equal.
      apply world_eq; try reflexivity. exact Hdel.
Qed.
End EndpointParserFacts.

Lemma make_hints_flags (nodns passive : Z) :
  ai_flags (make_hints nodns passive)
  = Z.lor (Z.lor (Z.lor EVUTIL_AI_ADDRCONFIG EVUTIL_AI_NUMERICSERV)
             (if passive =? 0 then 0 else EVUTIL_AI_PASSIVE))
      (if nodns =? 0 then 0 else EVUTIL_AI_NUMERICHOST).
Proof. unfold make_hints. destruct (passive =? 0), (nodns =? 0); reflexivity. Qed.

Lemma make_hints_spec (nodns passive : Z) :
  let h := make_hints nodns passive in
  ai_family h = AF_UNSPEC ∧ ai_socktype h = SOCK_STREAM ∧ ai_protocol h = 0
  ∧ flag_set (ai_flags h) EVUTIL_AI_ADDRCONFIG
  ∧ flag_set (ai_flags h) EVUTIL_AI_NUMERICSERV
  ∧ (flag_set (ai_flags h) EVUTIL_AI_PASSIVE ↔ passive ≠ 0)
  ∧ (flag_set (ai_flags h) EVUTIL_AI_NUMERICHOST ↔ nodns ≠ 0)
  ∧ Z.land (ai_flags h)
      (Z.lnot (Z.lor (Z.lor EVUTIL_AI_ADDRCONFIG EVUTIL_AI_NUMERICSERV)
                 (Z.lor EVUTIL_AI_PASSIVE EVUTIL_AI_NUMERICHOST))) = 0.
Proof.
  intros h. subst h. unfold flag_set. rewrite make_hints_flags.
  unfold make_hints.
  destruct (Z.eqb_spec passive 0) as [Hp|Hp], (Z.eqb_spec nodns 0) as [Hn|Hn];
    repeat split; try reflexivity; try (intros _; assumption);
    try (intros H; exfalso; revert H; vm_compute; discriminate);
    try (intros H; contradiction).
Qed.

Lemma verdict_events (gse se : Z → string) (s : string)
    (ans : Z * list evutil_addrinfo * Z) (node : string) (service : option string)
    (hints : evutil_addrinfo) :
  Getaddrinfo node service hints ∉ snd (resolver_verdict gse se s ans).
Proof.
  destruct ans as [[rc ai] en]. unfold resolver_verdict.
  destruct (rc =? 0); destruct ai as [|r ai]; simpl;
    rewrite ?elem_of_cons, ?elem_of_nil; intuition discriminate.
Qed.

(** C3: when the input string holds no colon and no default port is
    given, resolve_address_port returns the null list, the resolver is
    never consulted, and the only effect is one debug-level log line
    saying that a port is required. *)
Theorem resolve_port_required
    (gai : string → string → evutil_addrinfo → Z * list evutil_addrinfo * Z)
    (gse se : Z → string) (address : ptr) (nodns passive : Z) (w : world) (s : string) :
  cstr_at (heap w) address = Some s →
  char_byte ":" ∉ list_byte_of_string s →
  resolve_address_port gai gse se address nodns passive None w
  = Returned [] (add_events
      [Log Debug ("error in address " +:+ s +:+ ": port required")] w).
Proof.
  intros Hs Hcolon.
  rewrite (resolve_address_port_run gai gse se address nodns passive None w s Hs)
    by discriminate.
  unfold split_address. rewrite strchr_absent; [reflexivity|].
  unfold cstring_block. rewrite elem_of_app, elem_of_cons, elem_of_nil.
  intros [H|[H|[]]]; [now apply Hcolon | discriminate].
Qed.

Lemma resolve_port_required_witness :
  resolve_address_port (λ _ _ _, (0, [candidate_v4], 0)) (λ _, "") (λ _, "")
    (Ptr 1 0) 0 0 None (one_string_world "localhost")
  = Returned [] (add_events
      [Log Debug "error in address localhost: port required"]
      (one_string_world "localhost")).
Proof.
  apply (resolve_port_required _ _ _ (Ptr 1 0) 0 0 (one_string_world "localhost")
           "localhost").
  - vm_compute. reflexivity.
  - intros H. apply list_elem_of_In in H. vm_compute in H. intuition discriminate.
Defined.

(** C4: once the resolver has been reached, a non-zero result code
    makes resolve_address_port log one warning (with the errno text
    for EVUTIL_EAI_SYSTEM, without it otherwise), release the list if
    one was left, and return null; a zero code with a null list logs
    "address resolution failed" and returns null; only a zero code
    with a list returns that list.  The caller gets nothing but the
    list. *)
Theorem resolve_failure_reporting
    (gai : string → string → evutil_addrinfo → Z * list evutil_addrinfo * Z)
    (gse se : Z → string) (address : ptr) (nodns passive : Z)
    (default_port : option ptr) (w : world) (s host port : string)
    (rc : Z) (ai : list evutil_addrinfo) (en : Z) :
  cstr_at (heap w) address = Some s →
  (∀ p, default_port = Some p → is_Some (cstr_at (heap w) p)) →
  split_address s (default_port ≫= cstr_at (heap w)) = Some (host, port) →
  gai host port (make_hints nodns passive) = (rc, ai, en) →
  let call := Getaddrinfo host (Some port) (make_hints nodns passive) in
  let released := match ai with [] => [] | _ :: _ => [Freeaddrinfo ai] end in
  let run := resolve_address_port gai gse se address nodns passive default_port w in
  (rc ≠ 0 → rc = EVUTIL_EAI_SYSTEM →
     run = Returned [] (add_events
             (call :: Log Warn ("error resolving " +:+ s +:+ ": " +:+ gse rc
                                  +:+ " [" +:+ se en +:+ "]") :: released) w))
  ∧ (rc ≠ 0 → rc ≠ EVUTIL_EAI_SYSTEM →
     run = Returned [] (add_events
             (call :: Log Warn ("error resolving " +:+ s +:+ ": " +:+ gse rc)
                   :: released) w))
  ∧ (rc = 0 → ai = [] →
     run = Returned [] (add_events
             [call; Log Warn ("address resolution failed for " +:+ s)] w))
  ∧ (rc = 0 → ai ≠ [] → run = Returned ai (add_events [call] w)).
Proof.
  intros Hs Hd Hsplit Hgai call released run. subst run.
  rewrite (resolve_address_port_run gai gse se address nodns passive default_port w s Hs Hd).
  rewrite Hsplit. cbv zeta. rewrite Hgai. unfold resolver_verdict.
  repeat split.
  - intros Hrc Hsys. apply Z.eqb_neq in Hrc. apply Z.eqb_eq in Hsys.
    rewrite Hrc, Hsys. reflexivity.
  - intros Hrc Hsys. apply Z.eqb_neq in Hrc, Hsys. rewrite Hrc, Hsys. reflexivity.
  - intros -> ->. reflexivity.
  - intros -> Hai. destruct ai; [contradiction | reflexivity].
Qed.

Lemma resolve_failure_reporting_witness :
  resolve_address_port (λ _ _ _, (EVUTIL_EAI_SYSTEM, [candidate_v4], 111))
    (λ _, "System error") (λ _, "Connection refused")
    (Ptr 1 0) 0 0 None (one_string_world "example.com:443")
  = Returned [] (add_events
      [Getaddrinfo "example.com" (Some "443") (make_hints 0 0);
       Log Warn "error resolving example.com:443: System error [Connection refused]";
       Freeaddrinfo [candidate_v4]]
      (one_string_world "example.com:443")).
Proof.
  refine (proj1 (resolve_failure_reporting
            (λ _ _ _, (EVUTIL_EAI_SYSTEM, [candidate_v4], 111))
            (λ _, "System error") (λ _, "Connection refused")
            (Ptr 1 0) 0 0 None (one_string_world "example.com:443")
            "example.com:443" "example.com" "443"
            EVUTIL_EAI_SYSTEM [candidate_v4] 111 _ _ _ _) _ _).
  - vm_compute. reflexivity.
  - intros p H. discriminate H.
  - vm_compute. reflexivity.
  - reflexivity.
  - vm_compute. discriminate.
  - reflexivity.
Defined.

(** C6: on a readable input resolve_address_port returns, and every
    call it makes to the resolver carries hints with family AF_UNSPEC,
    socket type SOCK_STREAM and flags ADDRCONFIG and NUMERICSERV, with
    PASSIVE set exactly when [passive] is non-zero, NUMERICHOST set
    exactly when [nodns] is non-zero, and no other bit; whenever a
    port string is available the resolver is called, with these
    hints. *)
Theorem resolve_hints
    (gai : string → string → evutil_addrinfo → Z * list evutil_addrinfo * Z)
    (gse se : Z → string) (address : ptr) (nodns passive : Z)
    (default_port : option ptr) (w : world) (s : string) :
  cstr_at (heap w) address = Some s →
  (∀ p, default_port = Some p → is_Some (cstr_at (heap w) p)) →
  ∃ r evs,
    resolve_address_port gai gse se address nodns passive default_port w
    = Returned r (add_events evs w)
    ∧ (∀ host port,
         split_address s (default_port ≫= cstr_at (heap w)) = Some (host, port) →
         head evs = Some (Getaddrinfo host (Some port) (make_hints nodns passive)))
    ∧ ∀ node service hints,
        Getaddrinfo node service hints ∈ evs →
        ai_family hints = AF_UNSPEC ∧ ai_socktype hints = SOCK_STREAM
        ∧ ai_flags hints
          = Z.lor (Z.lor (Z.lor EVUTIL_AI_ADDRCONFIG EVUTIL_AI_NUMERICSERV)
                     (if passive =? 0 then 0 else EVUTIL_AI_PASSIVE))
              (if nodns =? 0 then 0 else EVUTIL_AI_NUMERICHOST)
        ∧ flag_set (ai_flags hints) EVUTIL_AI_ADDRCONFIG
        ∧ flag_set (ai_flags hints) EVUTIL_AI_NUMERICSERV
        ∧ (flag_set (ai_flags hints) EVUTIL_AI_PASSIVE ↔ passive ≠ 0)
        ∧ (flag_set (ai_flags hints) EVUTIL_AI_NUMERICHOST ↔ nodns ≠ 0).
Proof.
  intros Hs Hd.
  rewrite (resolve_address_port_run gai gse se address nodns passive default_port w s Hs Hd).
  destruct (split_address s (default_port ≫= cstr_at (heap w))) as [[host port]|].
  - eexists _, _. split; [reflexivity|]. split.
    + intros host' port' [= <- <-]. reflexivity.
    + intros node service hints Hin. apply elem_of_cons in Hin as [Heq|Hin].
      * injection Heq as -> -> ->.
        pose proof (make_hints_spec nodns passive) as (Hf & Ht & _ & Hc & Hv & Hp & Hn & _).
        rewrite <- make_hints_flags. tauto.
      * now apply verdict_events in Hin.
  - eexists _, _. split; [reflexivity|]. split; [discriminate|].
    intros node service hints Hin.
    rewrite elem_of_cons, elem_of_nil in Hin. intuition discriminate.
Qed.

Lemma resolve_hints_witness :
  ∃ r evs,
    resolve_address_port (λ _ _ _, (0, [candidate_v4], 0)) (λ _, "") (λ _, "")
      (Ptr 1 0) 1 1 None (one_string_world "10.0.0.1:22")
    = Returned r (add_events evs (one_string_world "10.0.0.1:22"))
    ∧ head evs = Some (Getaddrinfo "10.0.0.1" (Some "22")
                         {| ai_flags := 0x425; ai_family := 0; ai_socktype := 1;
                            ai_protocol := 0; ai_addrlen := 0; ai_addr := [] |}).
Proof.
  destruct (resolve_hints (λ _ _ _, (0, [candidate_v4], 0)) (λ _, "") (λ _, "")
              (Ptr 1 0) 1 1 None (one_string_world "10.0.0.1:22") "10.0.0.1:22")
    as (r & evs & Hrun & Hcall & _).
  - vm_compute. reflexivity.
  - intros p H. discriminate H.
  - exists r, evs. split; [exact Hrun|].
    apply (Hcall "10.0.0.1" "22"). vm_compute. reflexivity.
Defined.

(** C9: on a readable input resolve_address_port returns on every
    path with the heap exactly as it was before the call: the caller's
    string still reads the same, and the duplicate on which the colon
    was overwritten, allocated in a block that was not live before, is
    no longer live. *)
Theorem resolve_preserves_input
    (gai : string → string → evutil_addrinfo → Z * list evutil_addrinfo * Z)
    (gse se : Z → string) (address : ptr) (nodns passive : Z)
    (default_port : option ptr) (w : world) (s : string) :
  cstr_at (heap w) address = Some s →
  (∀ p, default_port = Some p → is_Some (cstr_at (heap w) p)) →
  ∃ r w',
    resolve_address_port gai gse se address nodns passive default_port w = Returned r w'
    ∧ heap w' = heap w
    ∧ cstr_at (heap w') address = Some s
    ∧ heap w' !! fresh (dom (heap w)) = None.
Proof.
  intros Hs Hd.
  rewrite (resolve_address_port_run gai gse se address nodns passive default_port w s Hs Hd).
  destruct (split_address s (default_port ≫= cstr_at (heap w))) as [[host port]|];
    eexists _, _; (split; [reflexivity|]); simpl;
    (split; [reflexivity | split; [exact Hs | apply fresh_block_unused]]).
Qed.

Lemma resolve_preserves_input_witness :
  ∃ r w',
    resolve_address_port (λ _ _ _, (0, [candidate_v4], 0)) (λ _, "") (λ _, "")
      (Ptr 1 0) 0 0 None (one_string_world "example.com:443") = Returned r w'
    ∧ heap w' = heap (one_string_world "example.com:443").
Proof.
  destruct (resolve_preserves_input (λ _ _ _, (0, [candidate_v4], 0)) (λ _, "") (λ _, "")
              (Ptr 1 0) 0 0 None (one_string_world "example.com:443") "example.com:443")
    as (r & w' & Hrun & Hheap & _).
  - vm_compute. reflexivity.
  - intros p H. discriminate H.
  - exists r, w'. split; [exact Hrun | exact Hheap].
Defined.

(** ** Numeric address codec *)

Lemma write_at_length (off : nat) (blk src : list byte) (n : nat) :
  (n ≤ length src)%nat → (off + n ≤ length blk)%nat →
  length (write_at off blk src n) = length blk.
Proof.
  intros Hs Hb. unfold write_at.
  rewrite !length_app, !length_take, length_drop. lia.
Qed.


Lemma write_at_before (off : nat) (blk src : list byte) (n : nat) :
  (off ≤ length blk)%nat → take off (write_at off blk src n) = take off blk.
Proof.
  intros Hb. unfold write_at. now rewrite take_app_length' by (rewrite length_take; lia).
Qed.

Lemma write_at_after (off : nat) (blk src : list byte) (n m : nat) :
  (n ≤ length src)%nat → (off + n ≤ length blk)%nat → (n ≤ m)%nat →
  drop (off + m) (write_at off blk src n) = drop (off + m) blk.
Proof.
  intros Hs Hb Hm. unfold write_at.
  rewrite drop_app_ge by (rewrite length_take; lia).
  rewrite length_take, drop_app_ge by (rewrite length_take; lia).
  rewrite length_take, drop_drop. f_equal. lia.
Qed.

Lemma write_at_twice (off : nat) (blk src1 src2 : list byte) (n : nat) :
  (n ≤ length src1)%nat → (off + n ≤ length blk)%nat →
  write_at off (write_at off blk src1 n) src2 n = write_at off blk src2 n.
Proof.
  intros Hs Hb. unfold write_at at 1.
  rewrite write_at_before by lia.
  rewrite (write_at_after off blk src1 n n) by lia. reflexivity.
Qed.





Lemma memcpy_run (b : positive) (off : nat) (src : list byte) (n : nat)
    (w : world) (blk : list byte) :
  heap w !! b = Some blk → (n ≤ length src)%nat → (off + n ≤ length blk)%nat →
  memcpy (Ptr b off) src n w
  = Returned tt (set_heap (<[b := write_at off blk src n]> (heap w)) w).
Proof.
  intros Hb Hs Hl. unfold memcpy. simpl p_block. simpl p_off. rewrite Hb.
  destruct (decide (n ≤ length src ∧ off + n ≤ length blk)%nat) as [|Hno];
    [reflexivity | lia].
Qed.

Section NumericCodecFacts.
Variable getaddrinfo :
  string → option string → evutil_addrinfo → Z * list evutil_addrinfo.


End NumericCodecFacts.




(** ** Resolver context holder *)

Create HintDb frame.

Lemma frame_ret {A} (a : A) : static_frame (mret a : M A).
Proof. intros w a' w' [= <- <-]. now split. Qed.

Lemma frame_bind {A B} (m : M A) (f : A → M B) :
  static_frame m → (∀ a, static_frame (f a)) → static_frame (m ≫= f).
Proof.
  intros Hm Hf w b w'. unfold mbind, M_bind.
  destruct (m w) as [a w1| |] eqn:Hmw; try discriminate.
  intros Hfa. destruct (Hm _ _ _ Hmw) as [E1 E2].
  destruct (Hf a _ _ _ Hfa) as [E3 E4]. split; congruence.
Qed.

Lemma frame_undefined {A} : static_frame (λ _, Undefined : result A).
Proof. intros w a w' H. discriminate H. Qed.

Lemma frame_log_at sev f args : static_frame (log_at sev f args).
Proof. intros w a w' [= <- <-]. now split. Qed.

Lemma frame_log_assert b : static_frame (log_assert b).
Proof. intros w a w'. unfold log_assert. destruct b; [|discriminate]. intros [= <- <-]. now split. Qed.

Lemma frame_read_cstr p : static_frame (read_cstr p).
Proof.
  intros w a w'. unfold read_cstr. destruct (cstr_at (heap w) p); [|discriminate].
  intros [= <- <-]. now split.
Qed.

Lemma frame_store_byte p b : static_frame (store_byte p b).
Proof.
  intros w a w'. unfold store_byte. destruct (heap w !! p_block p); [|discriminate].
  destruct (decide _); [|discriminate]. intros [= <- <-]. now split.
Qed.

Lemma frame_memcpy dst src n : static_frame (memcpy dst src n).
Proof.
  intros w a w'. unfold memcpy. destruct (heap w !! p_block dst); [|discriminate].
  destruct (decide _); [|discriminate]. intros [= <- <-]. now split.
Qed.

Lemma frame_xstrdup s : static_frame (xstrdup s).
Proof. intros w a w' [= <- <-]. now split. Qed.

Lemma frame_free p : static_frame (free p).
Proof.
  intros w a w'. unfold free. destruct (heap w !! p_block p); [|discriminate].
  destruct (decide _); [|discriminate]. intros [= <- <-]. now split.
Qed.

Lemma frame_strchr_at p c : static_frame (strchr_at p c).
Proof.
  intros w a w'. unfold strchr_at. destruct (heap w !! p_block p); [|discriminate].
  intros [= <- <-]. now split.
Qed.

Lemma frame_freeaddrinfo ai : static_frame (evutil_freeaddrinfo ai).
Proof. intros w a w' [= <- <-]. now split. Qed.

Lemma frame_resolver_answer gai n s hints : static_frame (resolver_answer gai n s hints).
Proof. intros w a w' [= <- <-]. now split. Qed.

Lemma frame_platform_answer gai n hints : static_frame (platform_answer gai n hints).
Proof. intros w a w' [= <- <-]. now split. Qed.

#[local] Hint Resolve frame_ret frame_undefined frame_log_at frame_log_assert
  frame_read_cstr frame_store_byte frame_memcpy frame_xstrdup frame_free
  frame_strchr_at frame_freeaddrinfo frame_resolver_answer frame_platform_answer
  : frame.

(** Walks through a monadic body: binds, branches and primitives. *)
Ltac frame_step :=
  match goal with
  | |- static_frame (_ ≫= _) => apply frame_bind; [|intros ?]
  | |- static_frame (match ?x with _ => _ end) => destruct x
  | |- static_frame (log_debug _ _) => apply frame_log_at
  | |- static_frame (log_warn _ _) => apply frame_log_at
  | |- static_frame (freeaddrinfo _) => apply frame_freeaddrinfo
  | |- static_frame _ => solve [auto with frame]
  end.
Ltac frame := repeat (cbv beta; frame_step).

Lemma frame_copy_candidates dst res : static_frame (copy_candidates dst res).
Proof. induction res as [|r res IH]; simpl; frame. Qed.

Lemma frame_inet_pton gai af src dst : static_frame (inet_pton gai af src dst).
Proof. unfold inet_pton. frame; apply frame_copy_candidates. Qed.

Lemma frame_resolve_split gai gse se address a portstr nodns passive :
  static_frame (resolve_split gai gse se address a portstr nodns passive).
Proof. unfold resolve_split, call_getaddrinfo. frame. Qed.

Lemma frame_resolve_address_port gai gse se address nodns passive default_port :
  static_frame (resolve_address_port gai gse se address nodns passive default_port).
Proof.
  unfold resolve_address_port. frame; apply frame_resolve_split.
Qed.

Lemma frame_printable_address o ntop addr addrlen :
  static_frame (printable_address o ntop addr addrlen).
Proof.
  unfold printable_address, as_sockaddr_in, as_sockaddr_in6, as_sockaddr_un. frame.
Qed.

Section HolderFacts.
Variable host_order : byte_order.
Variable ntop : Z → list byte → nat → option string.
Variable gai : string → string → evutil_addrinfo → Z * list evutil_addrinfo * Z.
Variable gse se : Z → string.
Variable getaddrinfo :
  string → option string → evutil_addrinfo → Z * list evutil_addrinfo.
Variable evdns_base_new : event_base → Z → nat → option evdns_base.

Lemma after_frame {A} (m : M A) (w w' : world) :
  static_frame m → after (m w) = Some w' →
  the_evdns_base w' = the_evdns_base w ∧ evdns_made w' = evdns_made w.
Proof.
  intros Hm H. destruct (m w) as [a w1| |] eqn:Hmw; try discriminate.
  injection H as <-. exact (Hm _ _ _ Hmw).
Qed.

Lemma run_call_frame (c : call) (w w' : world) :
  is_init c = false →
  run_call host_order ntop gai gse se getaddrinfo evdns_base_new c w = Some w' →
  the_evdns_base w' = the_evdns_base w ∧ evdns_made w' = evdns_made w.
Proof.
  intros Hc H. destruct c; simpl in H; try discriminate.
  - eapply after_frame; [apply frame_inet_pton | exact H].
  - eapply after_frame; [apply frame_resolve_address_port | exact H].
  - eapply after_frame; [apply frame_printable_address | exact H].
  - injection H as <-. now split.
  - injection H as <-. now split.
Qed.

Lemma run_calls_frame (cs : list call) (w w' : world) :
  forallb (λ c, negb (is_init c)) cs = true →
  run_calls host_order ntop gai gse se getaddrinfo evdns_base_new cs w = Some w' →
  the_evdns_base w' = the_evdns_base w ∧ evdns_made w' = evdns_made w.
Proof.
  revert w; induction cs as [|c cs IH]; intros w Hcs H; simpl in *.
  - injection H as <-. now split.
  - apply andb_true_iff in Hcs as [Hc Hcs]. apply negb_true_iff in Hc.
    destruct (run_call host_order ntop gai gse se getaddrinfo evdns_base_new c w)
      as [w1|] eqn:Hw1; [|discriminate].
    destruct (run_call_frame c w w1 Hc Hw1) as [E1 E2].
    destruct (IH w1 Hcs H) as [E3 E4]. split; congruence.
Qed.
End HolderFacts.

(** C8: as long as init_evdns_base has not been called, whatever else
    the client has called, get_evdns_base returns null and leaves the
    world as it is; and init_evdns_base returns -1 exactly when
    evdns_base_new yields null, 0 otherwise. *)
Theorem get_before_init
    (o : byte_order) (ntop : Z → list byte → nat → option string)
    (gai : string → string → evutil_addrinfo → Z * list evutil_addrinfo * Z)
    (gse se : Z → string)
    (getaddrinfo : string → option string → evutil_addrinfo → Z * list evutil_addrinfo)
    (evdns_base_new : event_base → Z → nat → option evdns_base)
    (calls : list call) (w : world) :
  forallb (λ c, negb (is_init c)) calls = true →
  run_calls o ntop gai gse se getaddrinfo evdns_base_new calls initial_world = Some w →
  get_evdns_base w = Returned None w
  ∧ ∀ base, ∃ status w',
      init_evdns_base evdns_base_new base w = Returned status w'
      ∧ (status = -1 ∨ status = 0)
      ∧ (status = -1 ↔ evdns_base_new base 1 (evdns_made w) = None).
Proof.
  intros Hcalls Hrun.
  destruct (run_calls_frame o ntop gai gse se getaddrinfo evdns_base_new
              calls initial_world w Hcalls Hrun) as [Hbase _].
  split.
  - unfold get_evdns_base. now rewrite Hbase.
  - intros base. unfold init_evdns_base. simpl.
    eexists _, _. split; [reflexivity|].
    destruct (evdns_base_new base 1 (evdns_made w)); split; auto;
      split; intros; (discriminate || reflexivity).
Qed.

Lemma get_before_init_witness :
  ∃ w,
    run_calls LittleEndian inet_ntop (λ _ _ _, (0, [candidate_v4], 0)) (λ _, "") (λ _, "")
      (λ _ _ _, (0, [candidate_v4])) (λ _ _ _, None)
      [ClientMemory {[ 1%positive := cstring_block "example.com:443" ]};
       CallGet;
       CallResolve (Ptr 1 0) 0 0 None] initial_world
    = Some w
    ∧ get_evdns_base w = Returned None w.
Proof.
  eexists. split; [vm_compute; reflexivity|].
  refine (proj1 (get_before_init LittleEndian inet_ntop
            (λ _ _ _, (0, [candidate_v4], 0)) (λ _, "") (λ _, "")
            (λ _ _ _, (0, [candidate_v4])) (λ _ _ _, None)
            [ClientMemory {[ 1%positive := cstring_block "example.com:443" ]};
             CallGet;
             CallResolve (Ptr 1 0) 0 0 None]
            _ _ _)).
  - reflexivity.
  - vm_compute. reflexivity.
Defined.

(** C10: init_evdns_base stores what evdns_base_new yields whatever
    was stored before, a null included; so after any calls, with
    [CallInit base] the last initialisation among them,
    get_evdns_base returns what that construction yielded, and with no
    initialisation at all it returns null. *)
Theorem get_after_last_init
    (o : byte_order) (ntop : Z → list byte → nat → option string)
    (gai : string → string → evutil_addrinfo → Z * list evutil_addrinfo * Z)
    (gse se : Z → string)
    (getaddrinfo : string → option string → evutil_addrinfo → Z * list evutil_addrinfo)
    (evdns_base_new : event_base → Z → nat → option evdns_base)
    (pre post : list call) (base : event_base) (w1 w3 : world) :
  run_calls o ntop gai gse se getaddrinfo evdns_base_new pre initial_world = Some w1 →
  forallb (λ c, negb (is_init c)) post = true →
  (run_calls o ntop gai gse se getaddrinfo evdns_base_new (CallInit base :: post) w1
   = Some w3 →
   get_evdns_base w3 = Returned (evdns_base_new base 1 (evdns_made w1)) w3)
  ∧ (run_calls o ntop gai gse se getaddrinfo evdns_base_new post initial_world = Some w3 →
     get_evdns_base w3 = Returned None w3).
Proof.
  intros Hpre Hpost. split; intros Hrun.
  - simpl in Hrun.
    destruct (run_calls_frame o ntop gai gse se getaddrinfo evdns_base_new
                post _ w3 Hpost Hrun) as [Hbase _].
    unfold get_evdns_base. now rewrite Hbase.
  - destruct (run_calls_frame o ntop gai gse se getaddrinfo evdns_base_new
                post _ w3 Hpost Hrun) as [Hbase _].
    unfold get_evdns_base. now rewrite Hbase.
Qed.

Lemma get_after_last_init_witness :
  ∃ w3,
    run_calls LittleEndian inet_ntop (λ _ _ _, (0, [candidate_v4], 0)) (λ _, "") (λ _, "")
      (λ _ _ _, (0, [candidate_v4]))
      (λ _ _ n, match n with O => Some (EvdnsBase 7) | _ => None end)
      [CallInit (EventBase 1); CallGet; CallInit (EventBase 1); CallGet] initial_world
    = Some w3
    ∧ get_evdns_base w3 = Returned None w3.
Proof.
  eexists. split; [vm_compute; reflexivity|].
  refine (proj1 (get_after_last_init LittleEndian inet_ntop
            (λ _ _ _, (0, [candidate_v4], 0)) (λ _, "") (λ _, "")
            (λ _ _ _, (0, [candidate_v4]))
            (λ _ _ n, match n with O => Some (EvdnsBase 7) | _ => None end)
            [CallInit (EventBase 1); CallGet] [CallGet] (EventBase 1)
            {| heap := ∅; trace := []; the_evdns_base := Some (EvdnsBase 7);
               evdns_made := 1 |} _ _ _) _).
  - vm_compute. reflexivity.
  - reflexivity.
  - vm_compute. reflexivity.
Defined.

(** * Further properties of the code *)

(** ** Endpoint parser: the split and its effects *)

Lemma strchr_first (l r : list byte) (c : byte) :
  Forall (λ x, Byte.eqb x c = false ∧ Byte.eqb x NUL = false) l →
  strchr (l ++ c :: r) c = Some (length l).
Proof.
  induction l as [|x l IH]; intros Hl; simpl.
  - assert (Hc : Byte.eqb c c = true) by (apply Byte.byte_dec_lb; reflexivity).
    now rewrite Hc.
  - apply Forall_cons in Hl as [[Hx Hn] Hl]. now rewrite Hx, Hn, (IH Hl).
Qed.

Lemma byte_eqb_false (x c : byte) : x ≠ c → Byte.eqb x c = false.
Proof.
  intros Hne. destruct (Byte.eqb x c) eqn:E; [|reflexivity].
  apply Byte.byte_dec_bl in E. contradiction.
Qed.

Lemma split_address_colon (host port : string) (dflt : option string) :
  nul_free host = true →
  char_byte ":" ∉ list_byte_of_string host →
  split_address (host +:+ ":" +:+ port) dflt = Some (host, port).
Proof.
  intros Hnf Hcolon. unfold split_address, cstring_block.
  rewrite !list_byte_of_string_app.
  change (list_byte_of_string ":") with [char_byte ":"].
  rewrite <- !app_assoc. simpl app.
  set (bh := list_byte_of_string host). set (bp := list_byte_of_string port).
  assert (Hdrop : drop (S (length bh)) (bh ++ char_byte ":" :: bp) = bp).
  { rewrite (cons_middle (char_byte ":") bh bp), app_assoc.
    apply drop_app_length'. rewrite length_app. simpl. lia. }
  rewrite strchr_first.
  - rewrite take_app_length.
    rewrite (Hdrop : drop (S (length bh)) (bh ++ x3a :: bp) = bp). unfold bh, bp.
    rewrite !string_of_list_byte_of_string. reflexivity.
  - unfold nul_free in Hnf. rewrite forallb_forall in Hnf.
    apply Forall_forall. intros x Hx. split.
    + apply byte_eqb_false. intros ->. apply Hcolon. exact Hx.
    + apply negb_true_iff, Hnf, list_elem_of_In, Hx.
Qed.

Section EndpointParserMore.
Variable gai : string → string → evutil_addrinfo → Z * list evutil_addrinfo * Z.
Variable gai_strerror : Z → string.
Variable strerror : Z → string.

(** With a colon in the string the default port is not looked at. *)
Lemma resolve_colon_any_default (address : ptr) (nodns passive : Z)
    (default_port : option ptr) (w : world) (s : string) (i : nat) :
  cstr_at (heap w) address = Some s →
  strchr (cstring_block s) (char_byte ":") = Some i →
  resolve_address_port gai gai_strerror strerror address nodns passive default_port w
  = resolve_address_port gai gai_strerror strerror address nodns passive None w.
Proof.
  intros Hs Hi. unfold resolve_address_port.
  rewrite !(bind_run _ _ _ _ _ (read_cstr_run _ _ _ Hs)).
  rewrite !(bind_run _ _ _ _ _ (xstrdup_run s w)).
  set (b := fresh (dom (heap w))). set (w1 := with_new_string s w).
  assert (Hchr : strchr_at (Ptr b 0) (char_byte ":") w1
                 = Returned (ptr_add (Ptr b 0) <$> strchr (cstring_block s) (char_byte ":")) w1).
  { unfold strchr_at. simpl p_block.
    rewrite (with_new_string_lookup s w : heap w1 !! b = _). reflexivity. }
  rewrite !(bind_run _ _ _ _ _ Hchr), Hi. reflexivity.
Qed.
End EndpointParserMore.

(** X1: an input "HOST:PORT" whose HOST holds no colon is split at
    that colon: the resolver is asked once, for node HOST and service
    PORT (further colons stay in the service string), whatever the
    default port argument is, a dangling pointer included. *)
Theorem resolve_splits_at_first_colon
    (gai : string → string → evutil_addrinfo → Z * list evutil_addrinfo * Z)
    (gse se : Z → string) (address : ptr) (nodns passive : Z)
    (default_port : option ptr) (w : world) (host port : string) :
  cstr_at (heap w) address = Some (host +:+ ":" +:+ port) →
  char_byte ":" ∉ list_byte_of_string host →
  ∃ r evs,
    resolve_address_port gai gse se address nodns passive default_port w
    = Returned r (add_events
        (Getaddrinfo host (Some port) (make_hints nodns passive) :: evs) w)
    ∧ forallb (λ e, negb (is_resolver_call e)) evs = true.
Proof.
  intros Hs Hcolon.
  pose proof (cstr_at_nul_free _ _ _ Hs) as Hnf.
  rewrite nul_free_app in Hnf. apply andb_true_iff in Hnf as [Hnf _].
  pose proof (split_address_colon host port None Hnf Hcolon) as Hsplit.
  assert (Hi : ∃ i, strchr (cstring_block (host +:+ ":" +:+ port)) (char_byte ":") = Some i).
  { unfold split_address in Hsplit.
    destruct (strchr _ _) as [i|]; [eauto | discriminate]. }
  destruct Hi as [i Hi].
  rewrite (resolve_colon_any_default gai gse se address nodns passive default_port w _ i Hs Hi).
  rewrite (resolve_address_port_run gai gse se address nodns passive None w _ Hs)
    by discriminate.
  simpl mbind. rewrite Hsplit. eexists _, _. split; [reflexivity|].
  destruct (gai host port (make_hints nodns passive)) as [[rc ai] en].
  unfold resolver_verdict.
  destruct (rc =? 0); destruct ai; reflexivity.
Qed.

Lemma resolve_splits_at_first_colon_witness :
  ∃ r evs,
    resolve_address_port (λ _ _ _, (0, [candidate_v4], 0)) (λ _, "") (λ _, "")
      (Ptr 1 0) 0 0 (Some (Ptr 9 3)) (one_string_world "example.com:443")
    = Returned r (add_events
        (Getaddrinfo "example.com" (Some "443") (make_hints 0 0) :: evs)
        (one_string_world "example.com:443")).
Proof.
  destruct (resolve_splits_at_first_colon (λ _ _ _, (0, [candidate_v4], 0))
              (λ _, "") (λ _, "") (Ptr 1 0) 0 0 (Some (Ptr 9 3))
              (one_string_world "example.com:443") "example.com" "443")
    as (r & evs & Hrun & _).
  - vm_compute. reflexivity.
  - intros H. apply list_elem_of_In in H. vm_compute in H. intuition discriminate.
  - exists r, evs. exact Hrun.
Defined.

(** X2: an input without a colon, with a default port given, is
    resolved as a whole: the resolver is asked once, for the whole
    string as node and the default port string as service. *)
Theorem resolve_uses_default_port
    (gai : string → string → evutil_addrinfo → Z * list evutil_addrinfo * Z)
    (gse se : Z → string) (address dp : ptr) (nodns passive : Z)
    (w : world) (s d : string) :
  cstr_at (heap w) address = Some s →
  cstr_at (heap w) dp = Some d →
  char_byte ":" ∉ list_byte_of_string s →
  ∃ r evs,
    resolve_address_port gai gse se address nodns passive (Some dp) w
    = Returned r (add_events
        (Getaddrinfo s (Some d) (make_hints nodns passive) :: evs) w)
    ∧ forallb (λ e, negb (is_resolver_call e)) evs = true.
Proof.
  intros Hs Hd Hcolon.
  rewrite (resolve_address_port_run gai gse se address nodns passive (Some dp) w s Hs).
  2:{ intros p [= <-]. eauto. }
  simpl mbind. rewrite Hd. unfold split_address.
  rewrite strchr_absent.
  2:{ unfold cstring_block. rewrite elem_of_app, elem_of_cons, elem_of_nil.
      intros [H|[H|[]]]; [now apply Hcolon | discriminate]. }
  eexists _, _. split; [reflexivity|].
  destruct (gai s d (make_hints nodns passive)) as [[rc ai] en].
  unfold resolver_verdict.
  destruct (rc =? 0); destruct ai; reflexivity.
Qed.

Lemma resolve_uses_default_port_witness :
  ∃ r evs,
    resolve_address_port (λ _ _ _, (0, [candidate_v4], 0)) (λ _, "") (λ _, "")
      (Ptr 1 0) 0 0 (Some (Ptr 2 0))
      (set_heap {[ 1%positive := cstring_block "localhost";
                   2%positive := cstring_block "9050" ]} initial_world)
    = Returned r (add_events
        (Getaddrinfo "localhost" (Some "9050") (make_hints 0 0) :: evs)
        (set_heap {[ 1%positive := cstring_block "localhost";
                     2%positive := cstring_block "9050" ]} initial_world)).
Proof.
  destruct (resolve_uses_default_port (λ _ _ _, (0, [candidate_v4], 0))
              (λ _, "") (λ _, "") (Ptr 1 0) (Ptr 2 0) 0 0
              (set_heap {[ 1%positive := cstring_block "localhost";
                           2%positive := cstring_block "9050" ]} initial_world)
              "localhost" "9050")
    as (r & evs & Hrun & _).
  - vm_compute. reflexivity.
  - vm_compute. reflexivity.
  - intros H. apply list_elem_of_In in H. vm_compute in H. intuition discriminate.
  - exists r, evs. exact Hrun.
Defined.

(** X3: resolve_address_port asks the resolver at most once; a null
    return comes with exactly one log line and a non-null return with
    none; a list is released only if it is non-null, and then null is
    returned, so the caller never receives a released list. *)
Theorem resolve_effects_disciplined
    (gai : string → string → evutil_addrinfo → Z * list evutil_addrinfo * Z)
    (gse se : Z → string) (address : ptr) (nodns passive : Z)
    (default_port : option ptr) (w : world) (s : string) :
  cstr_at (heap w) address = Some s →
  (∀ p, default_port = Some p → is_Some (cstr_at (heap w) p)) →
  ∃ r evs,
    resolve_address_port gai gse se address nodns passive default_port w
    = Returned r (add_events evs w)
    ∧ (length (filter (λ e, is_resolver_call e = true) evs) ≤ 1)%nat
    ∧ (r = [] → length (filter (λ e, is_log e = true) evs) = 1%nat)
    ∧ (r ≠ [] → forallb (λ e, negb (is_log e) && negb (is_release e)) evs = true)
    ∧ (∀ ai, Freeaddrinfo ai ∈ evs → ai ≠ [] ∧ r = []).
Proof.
  intros Hs Hd.
  rewrite (resolve_address_port_run gai gse se address nodns passive default_port w s Hs Hd).
  destruct (split_address s (default_port ≫= cstr_at (heap w))) as [[host port]|].
  - cbv zeta. destruct (gai host port (make_hints nodns passive)) as [[rc ai] en].
    unfold resolver_verdict.
    destruct (rc =? 0); destruct ai as [|c ai]; simpl fst; simpl snd;
      eexists _, _; (split; [reflexivity|]);
      (split; [vm_compute; lia|]);
      (split; [intros Hr; try discriminate Hr; reflexivity|]);
      (split; [intros Hr; try (now contradiction Hr); reflexivity|]);
      intros ai' Hin; rewrite ?elem_of_cons, ?elem_of_nil in Hin;
      intuition (try discriminate);
      match goal with H : Freeaddrinfo _ = Freeaddrinfo _ |- _ =>
        injection H as ->; discriminate end.
  - eexists _, _. split; [reflexivity|].
    split; [vm_compute; lia|]. split; [reflexivity|].
    split; [intros Hr; now contradiction Hr|].
    intros ai' Hin. rewrite elem_of_cons, elem_of_nil in Hin.
    intuition discriminate.
Qed.

Lemma resolve_effects_disciplined_witness :
  ∃ r evs,
    resolve_address_port (λ _ _ _, (-2, [candidate_v4], 0))
      (λ _, "Name or service not known") (λ _, "")
      (Ptr 1 0) 0 0 None (one_string_world "nowhere.invalid:80")
    = Returned r (add_events evs (one_string_world "nowhere.invalid:80"))
    ∧ (r = [] → length (filter (λ e, is_log e = true) evs) = 1%nat).
Proof.
  destruct (resolve_effects_disciplined (λ _ _ _, (-2, [candidate_v4], 0))
              (λ _, "Name or service not known") (λ _, "")
              (Ptr 1 0) 0 0 None (one_string_world "nowhere.invalid:80")
              "nowhere.invalid:80")
    as (r & evs & Hrun & _ & Hlog & _).
  - vm_compute. reflexivity.
  - intros p H. discriminate H.
  - exists r, evs. split; [exact Hrun | exact Hlog].
Defined.

(** X4: resolve_address_port does not consult the resolver context:
    with any handle stored, or none (before init_evdns_base), it
    returns the same list and adds the same events. *)
Theorem resolve_ignores_resolver_context
    (gai : string → string → evutil_addrinfo → Z * list evutil_addrinfo * Z)
    (gse se : Z → string) (address : ptr) (nodns passive : Z)
    (default_port : option ptr) (w : world) (s : string)
    (handle : option evdns_base) (made : nat) :
  cstr_at (heap w) address = Some s →
  (∀ p, default_port = Some p → is_Some (cstr_at (heap w) p)) →
  let w2 := {| heap := heap w; trace := trace w;
               the_evdns_base := handle; evdns_made := made |} in
  ∃ r evs,
    resolve_address_port gai gse se address nodns passive default_port w
    = Returned r (add_events evs w)
    ∧ resolve_address_port gai gse se address nodns passive default_port w2
      = Returned r (add_events evs w2).
Proof.
  intros Hs Hd w2.
  rewrite (resolve_address_port_run gai gse se address nodns passive default_port w s Hs Hd).
  rewrite (resolve_address_port_run gai gse se address nodns passive default_port w2 s Hs Hd).
  change (heap w2) with (heap w).
  destruct (split_address s (default_port ≫= cstr_at (heap w))) as [[host port]|];
    eexists _, _; split; reflexivity.
Qed.

Lemma resolve_ignores_resolver_context_witness :
  ∃ r evs,
    resolve_address_port (λ _ _ _, (0, [candidate_v4], 0)) (λ _, "") (λ _, "")
      (Ptr 1 0) 0 0 None (one_string_world "example.com:443")
    = Returned r (add_events evs (one_string_world "example.com:443"))
    ∧ resolve_address_port (λ _ _ _, (0, [candidate_v4], 0)) (λ _, "") (λ _, "")
        (Ptr 1 0) 0 0 None
        {| heap := heap (one_string_world "example.com:443"); trace := [];
           the_evdns_base := Some (EvdnsBase 7); evdns_made := 1 |}
      = Returned r (add_events evs
          {| heap := heap (one_string_world "example.com:443"); trace := [];
             the_evdns_base := Some (EvdnsBase 7); evdns_made := 1 |}).
Proof.
  apply (resolve_ignores_resolver_context (λ _ _ _, (0, [candidate_v4], 0))
           (λ _, "") (λ _, "") (Ptr 1 0) 0 0 None
           (one_string_world "example.com:443") "example.com:443"
           (Some (EvdnsBase 7)) 1).
  - vm_compute. reflexivity.
  - intros p H. discriminate H.
Defined.

(** ** Address formatter: effects, contract and buffer *)

(** X5: whatever it is given, when printable_address returns it has
    done nothing but allocate the one block it returns: the pointer is
    to the start of a block that was not live, that block holds a
    string and its terminator, every block that was live is unchanged,
    and nothing is logged. *)
Theorem printable_only_allocates (o : byte_order)
    (ntop : Z → list byte → nat → option string)
    (addr : sockaddr) (addrlen : Z) (w w' : world) (p : ptr) :
  printable_address o ntop addr addrlen w = Returned p w' →
  p = Ptr (fresh (dom (heap w))) 0
  ∧ heap w !! p_block p = None
  ∧ (∃ s, heap w' !! p_block p = Some (cstring_block s))
  ∧ (∀ b blk, heap w !! b = Some blk → heap w' !! b = Some blk)
  ∧ trace w' = trace w
  ∧ the_evdns_base w' = the_evdns_base w.
Proof.
  intros H.
  assert (Hshape : ∃ s, Returned p w'
                        = Returned (Ptr (fresh (dom (heap w))) 0) (with_new_string s w)).
  { unfold printable_address in H.
    destruct (sa_family addr =? AF_INET).
    - unfold mbind, M_bind, log_assert in H.
      destruct (sizeof_sockaddr_in <=? to_unsigned_int addrlen); [|discriminate].
      destruct addr as [sin| | |]; try discriminate H. simpl in H.
      destruct (ntop _ _ _); rewrite xstrdup_run in H; rewrite <- H; eauto.
    - destruct (sa_family addr =? AF_INET6).
      + unfold mbind, M_bind, log_assert in H.
        destruct (sizeof_sockaddr_in6 <=? to_unsigned_int addrlen); [|discriminate].
        destruct addr as [|sin6| |]; try discriminate H. simpl in H.
        destruct (ntop _ _ _); rewrite xstrdup_run in H; rewrite <- H; eauto.
      + destruct (sa_family addr =? AF_LOCAL).
        * unfold mbind, M_bind in H.
          destruct addr as [| |sun|]; try discriminate H. simpl in H.
          destruct (cstr_bytes (sun_path sun)); [|discriminate].
          rewrite xstrdup_run in H. rewrite <- H. eauto.
        * rewrite xstrdup_run in H. rewrite <- H. eauto. }
  destruct Hshape as [s [= -> ->]]. simpl p_block.
  split; [reflexivity|]. split; [apply fresh_block_unused|].
  split; [exists s; apply with_new_string_lookup|].
  split; [|split; reflexivity].
  intros b blk Hb. rewrite with_new_string_frame; eauto.
Qed.

Lemma printable_only_allocates_witness :
  heap (with_new_string "1.2.3.4:80" (one_string_world "x")) !! 1%positive
  = Some (cstring_block "x").
Proof.
  refine (proj1 (proj2 (proj2 (proj2 (printable_only_allocates LittleEndian inet_ntop
            (SaIn {| sin_port := 0x5000; sin_addr := (x01, x02, x03, x04) |}) 16
            (one_string_world "x") (with_new_string "1.2.3.4:80" (one_string_world "x"))
            (Ptr 2 0) _)))) 1%positive (cstring_block "x") _).
  - vm_compute. reflexivity.
  - vm_compute. reflexivity.
Defined.

(** X6: a local (AF_LOCAL) address is rendered as its path, the bytes
    of sun_path up to the terminator, with no port and without any
    check of the length argument; a sun_path without terminator is
    read past its end. *)
Theorem printable_address_local (o : byte_order)
    (ntop : Z → list byte → nat → option string)
    (sun : sockaddr_un) (addrlen : Z) (w : world) :
  match cstr_bytes (sun_path sun) with
  | Some path =>
      printable_address o ntop (SaUn sun) addrlen w
      = Returned (Ptr (fresh (dom (heap w))) 0)
          (with_new_string (string_of_list_byte path) w)
      ∧ cstr_at (heap (with_new_string (string_of_list_byte path) w))
          (Ptr (fresh (dom (heap w))) 0)
        = Some (string_of_list_byte path)
  | None => printable_address o ntop (SaUn sun) addrlen w = Undefined
  end.
Proof.
  destruct (cstr_bytes (sun_path sun)) as [path|] eqn:Hp.
  - split; [now apply printable_un_ok|].
    apply cstr_at_new_string. unfold nul_free.
    rewrite list_byte_of_string_of_list_byte. now apply cstr_bytes_inv in Hp.
  - unfold printable_address.
    change (sa_family (SaUn sun) =? AF_INET) with false.
    change (sa_family (SaUn sun) =? AF_INET6) with false.
    change (sa_family (SaUn sun) =? AF_LOCAL) with true. cbv iota.
    rewrite (bind_run _ _ w w sun) by reflexivity. now rewrite Hp.
Qed.

(** X7: in the AF_INET branch the call halts on the assertion exactly
    when the length argument, as an unsigned int, is below the size of
    struct sockaddr_in, and in the AF_INET6 branch exactly when it is
    below the size of struct sockaddr_in6, whatever the address holds;
    for every other family it never halts. *)
Theorem printable_asserts_length (o : byte_order)
    (ntop : Z → list byte → nat → option string)
    (addr : sockaddr) (addrlen : Z) (w : world) :
  (sa_family addr = AF_INET →
   (printable_address o ntop addr addrlen w = Aborted
    ↔ to_unsigned_int addrlen < sizeof_sockaddr_in))
  ∧ (sa_family addr = AF_INET6 →
     (printable_address o ntop addr addrlen w = Aborted
      ↔ to_unsigned_int addrlen < sizeof_sockaddr_in6))
  ∧ (sa_family addr ≠ AF_INET → sa_family addr ≠ AF_INET6 →
     printable_address o ntop addr addrlen w ≠ Aborted).
Proof.
  unfold printable_address. split; [|split].
  - intros ->. change (AF_INET =? AF_INET) with true. cbv iota.
    unfold mbind, M_bind, log_assert.
    destruct (Z.leb_spec sizeof_sockaddr_in (to_unsigned_int addrlen)) as [Hle|Hlt].
    + split; [|lia]. destruct addr as [sin| | |]; simpl; try discriminate.
      destruct (ntop _ _ _); rewrite xstrdup_run; discriminate.
    + split; [intros _; exact Hlt | reflexivity].
  - intros ->. change (AF_INET6 =? AF_INET) with false.
    change (AF_INET6 =? AF_INET6) with true. cbv iota.
    unfold mbind, M_bind, log_assert.
    destruct (Z.leb_spec sizeof_sockaddr_in6 (to_unsigned_int addrlen)) as [Hle|Hlt].
    + split; [|lia]. destruct addr as [|sin6| |]; simpl; try discriminate.
      destruct (ntop _ _ _); rewrite xstrdup_run; discriminate.
    + split; [intros _; exact Hlt | reflexivity].
  - intros H4 H6. apply Z.eqb_neq in H4, H6. rewrite H4, H6.
    destruct (sa_family addr =? AF_LOCAL).
    + unfold mbind, M_bind. destruct addr as [| |sun|]; simpl; try discriminate.
      destruct (cstr_bytes (sun_path sun)); [rewrite xstrdup_run|]; discriminate.
    + rewrite xstrdup_run. discriminate.
Qed.

(** X8: with any inet_ntop that keeps its size contract (the text and
    its terminator fit the [cnt] bytes it is given), the text
    printable_address returns is the complete formatted text of the
    branch taken: the buffer of INET6_ADDRSTRLEN + 8 bytes is never too
    small, for a port of five digits and a text of 45 characters
    included. *)
Theorem printable_buffer_suffices (o : byte_order)
    (ntop : Z → list byte → nat → option string)
    (addr : sockaddr) (addrlen : Z) (w : world) :
  (∀ af src cnt s, ntop af src cnt = Some s → (String.length s < cnt)%nat) →
  sockaddr_wf addr → length_ok addr addrlen →
  let untruncated :=
    match addr with
    | SaIn sin =>
        match ntop AF_INET (in_addr_bytes (sin_addr sin)) INET6_ADDRSTRLEN with
        | Some abuf => format "%s:%d" [ArgS abuf; ArgD (ntohs o (sin_port sin))]
        | None => format "<addr family %d>" [ArgD AF_INET]
        end
    | SaIn6 sin6 =>
        match ntop AF_INET (in6_addr_bytes (sin6_addr sin6)) INET6_ADDRSTRLEN with
        | Some abuf => format "[%s]:%d" [ArgS abuf; ArgD (ntohs o (sin6_port sin6))]
        | None => format "<addr family %d>" [ArgD AF_INET6]
        end
    | SaUn sun =>
        match cstr_bytes (sun_path sun) with
        | Some path => string_of_list_byte path
        | None => ""
        end
    | SaOther f _ => format "<addr family %d>" [ArgD f]
    end in
  printable_address o ntop addr addrlen w
  = Returned (Ptr (fresh (dom (heap w))) 0) (with_new_string untruncated w)
  ∧ (sa_family addr ≠ AF_LOCAL → (String.length untruncated < apbuf_size)%nat).
Proof.
  intros Hfits Hwf Hlen untruncated. subst untruncated.
  destruct addr as [sin|sin6|sun|f data]; simpl in Hwf, Hlen.
  - destruct (ntop AF_INET (in_addr_bytes (sin_addr sin)) INET6_ADDRSTRLEN)
      as [abuf|] eqn:Hn.
    + rewrite format_host_port. split.
      * now apply printable_in_ok.
      * intros _. apply Hfits in Hn. unfold INET6_ADDRSTRLEN in Hn.
        rewrite !string_length_app.
        pose proof (fmt_d_u16_length _ (ntohs_range o (sin_port sin))).
        change apbuf_size with 54%nat. simpl String.length. lia.
    + split.
      * now apply (printable_convert_fails o ntop (SaIn sin)).
      * intros _. vm_compute. lia.
  - destruct (ntop AF_INET (in6_addr_bytes (sin6_addr sin6)) INET6_ADDRSTRLEN)
      as [abuf|] eqn:Hn.
    + rewrite format_bracket_port. split.
      * now apply printable_in6_ok.
      * intros _. apply Hfits in Hn. unfold INET6_ADDRSTRLEN in Hn.
        rewrite !string_length_app.
        pose proof (fmt_d_u16_length _ (ntohs_range o (sin6_port sin6))).
        change apbuf_size with 54%nat. simpl String.length. lia.
    + split.
      * now apply (printable_convert_fails o ntop (SaIn6 sin6)).
      * intros _. vm_compute. lia.
  - destruct Hwf as [path Hp]. rewrite Hp. split.
    + now apply printable_un_ok.
    + intros H. now contradiction H.
  - destruct Hwf as (Hr & H4 & H6 & Hl). rewrite format_family. split.
    + now apply (printable_other_family o ntop (SaOther f data)).
    + intros _. rewrite !string_length_app.
      pose proof (fmt_d_u16_length f Hr).
      change apbuf_size with 54%nat. simpl String.length. lia.
Qed.

Lemma printable_buffer_suffices_witness :
  printable_address BigEndian
    (λ af _ cnt, if (45 <? cnt)%nat
                 then Some "ffff:ffff:ffff:ffff:ffff:ffff:255.255.255.255"
                 else None)
    (SaIn6 {| sin6_port := 65535; sin6_flowinfo := 0;
              sin6_addr := in6_loopback; sin6_scope_id := 0 |}) 28
    (one_string_world "x")
  = Returned (Ptr 2 0)
      (with_new_string "[ffff:ffff:ffff:ffff:ffff:ffff:255.255.255.255]:65535"
         (one_string_world "x")).
Proof.
  refine (proj1 (printable_buffer_suffices BigEndian
            (λ af _ cnt, if (45 <? cnt)%nat
                         then Some "ffff:ffff:ffff:ffff:ffff:ffff:255.255.255.255"
                         else None)
            (SaIn6 {| sin6_port := 65535; sin6_flowinfo := 0;
                      sin6_addr := in6_loopback; sin6_scope_id := 0 |}) 28
            (one_string_world "x") _ _ _)).
  - intros af src cnt s. destruct (Nat.ltb_spec 45 cnt) as [Hc|Hc]; [|discriminate].
    intros [= <-]. simpl. lia.
  - exact I.
  - vm_compute. discriminate.
Defined.

(** ** Address formatter: the IPv4 text determines the endpoint *)

Lemma fmt_d_inj (a b : Z) : fmt_d a = fmt_d b → a = b.
Proof.
  unfold fmt_d. intros H. apply DecimalZ.to_int_inj.
  assert (Hok : ∀ z, Z.to_int z ≠ Decimal.Pos Decimal.Nil
                     ∧ Z.to_int z ≠ Decimal.Neg Decimal.Nil).
  { intros [|q|q]; simpl; split; try discriminate;
      intros [= Hq]; now apply DecimalPos.Unsigned.to_uint_nonnil in Hq. }
  destruct (Hok a) as [Ha1 Ha2]. destruct (Hok b) as [Hb1 Hb2].
  pose proof (DecimalString.NilZero.isi _ Ha1 Ha2) as Ea.
  pose proof (DecimalString.NilZero.isi _ Hb1 Hb2) as Eb.
  rewrite H in Ea. congruence.
Qed.

Lemma has_char_app (c : ascii) (s t : string) :
  has_char c (s +:+ t) = has_char c s || has_char c t.
Proof.
  induction s as [|x s IH]; [reflexivity|].
  rewrite string_app_cons. simpl. now rewrite IH, orb_assoc.
Qed.

(** A text is cut at the first separator in one way only. *)
Lemma app_sep_inj (c : ascii) (a1 a2 r1 r2 : string) :
  has_char c a1 = false → has_char c a2 = false →
  a1 +:+ String c r1 = a2 +:+ String c r2 → a1 = a2 ∧ r1 = r2.
Proof.
  revert a2; induction a1 as [|x a1 IH]; intros [|y a2] H1 H2 H.
  - injection H as ->. now split.
  - rewrite string_app_cons in H. injection H as <- _.
    simpl in H2. now rewrite Ascii.eqb_refl in H2.
  - rewrite string_app_cons in H. injection H as -> _.
    simpl in H1. now rewrite Ascii.eqb_refl in H1.
  - rewrite !string_app_cons in H. injection H as -> H.
    simpl in H1, H2. apply orb_false_iff in H1 as [_ H1], H2 as [_ H2].
    destruct (IH a2 H1 H2 H) as [-> ->]. now split.
Qed.

Lemma fmt_d_byte_plain (b : byte) :
  has_char "." (fmt_d (byte_to_Z b)) = false ∧ has_char ":" (fmt_d (byte_to_Z b)) = false.
Proof. destruct b; vm_compute; split; reflexivity. Qed.

Lemma byte_to_Z_inj (a b : byte) : byte_to_Z a = byte_to_Z b → a = b.
Proof.
  unfold byte_to_Z. intros H. apply N2Z.inj in H.
  apply (f_equal Byte.of_N) in H. rewrite !Byte.of_to_N in H. congruence.
Qed.

Lemma inet_ntop4_no_colon (a : in_addr) : has_char ":" (inet_ntop4 a) = false.
Proof.
  destruct a as [[[b0 b1] b2] b3]. unfold inet_ntop4.
  rewrite !has_char_app.
  destruct (fmt_d_byte_plain b0) as [_ ->]. destruct (fmt_d_byte_plain b1) as [_ ->].
  destruct (fmt_d_byte_plain b2) as [_ ->]. destruct (fmt_d_byte_plain b3) as [_ ->].
  reflexivity.
Qed.

Lemma inet_ntop4_inj (a b : in_addr) : inet_ntop4 a = inet_ntop4 b → a = b.
Proof.
  destruct a as [[[a0 a1] a2] a3], b as [[[b0 b1] b2] b3]. unfold inet_ntop4.
  assert (Hshape : ∀ x0 x1 x2 x3 : string,
            x0 +:+ "." +:+ x1 +:+ "." +:+ x2 +:+ "." +:+ x3
            = x0 +:+ String "." (x1 +:+ String "." (x2 +:+ String "." x3)))
    by reflexivity.
  rewrite !Hshape. intros H.
  apply app_sep_inj in H as [H0 H]; try apply fmt_d_byte_plain.
  apply app_sep_inj in H as [H1 H]; try apply fmt_d_byte_plain.
  apply app_sep_inj in H as [H2 H3]; try apply fmt_d_byte_plain.
  apply fmt_d_inj, byte_to_Z_inj in H0, H1, H2, H3. now subst.
Qed.

(** X9: the IPv4 text is lossless: two sockaddr_in structures (with
    16-bit port fields) for which printable_address returns the same
    string have the same address bytes and the same port. *)
Theorem printable_ipv4_lossless (o : byte_order) (sin1 sin2 : sockaddr_in)
    (len1 len2 : Z) (w1 w2 : world) :
  sizeof_sockaddr_in ≤ to_unsigned_int len1 →
  sizeof_sockaddr_in ≤ to_unsigned_int len2 →
  0 ≤ sin_port sin1 < 65536 → 0 ≤ sin_port sin2 < 65536 →
  returned_string (printable_address o inet_ntop (SaIn sin1) len1 w1)
  = returned_string (printable_address o inet_ntop (SaIn sin2) len2 w2) →
  sin1 = sin2.
Proof.
  intros Hl1 Hl2 Hp1 Hp2.
  assert (Hrun : ∀ sin len w, sizeof_sockaddr_in ≤ to_unsigned_int len →
            returned_string (printable_address o inet_ntop (SaIn sin) len w)
            = Some (inet_ntop4 (sin_addr sin) +:+ ":" +:+ fmt_d (ntohs o (sin_port sin)))).
  { intros sin len w Hl.
    rewrite (printable_in_ok o inet_ntop inet_ntop_fits sin len w (inet_ntop4 (sin_addr sin)) Hl).
    - simpl. apply cstr_at_new_string.
      rewrite !nul_free_app, inet_ntop4_nul_free, fmt_d_u16_nul_free
        by apply ntohs_range.
      reflexivity.
    - rewrite <- (app_nil_r (in_addr_bytes _)). apply inet_ntop_in_addr. }
  rewrite (Hrun sin1 len1 w1 Hl1), (Hrun sin2 len2 w2 Hl2). intros [= H].
  assert (Hshape : ∀ x p : string, x +:+ ":" +:+ p = x +:+ String ":" p)
    by reflexivity.
  rewrite !Hshape in H.
  apply app_sep_inj in H as [Ha Hp]; try apply inet_ntop4_no_colon.
  apply inet_ntop4_inj in Ha. apply fmt_d_inj in Hp.
  apply (f_equal (ntohs o)) in Hp.
  rewrite !(ntohs_htons o : ∀ p, 0 ≤ p < 65536 → ntohs o (ntohs o p) = p) in Hp
    by assumption.
  destruct sin1, sin2; simpl in *. now subst.
Qed.

Lemma printable_ipv4_lossless_witness :
  {| sin_port := 0x5000; sin_addr := (x01, x02, x03, x04) |}
  = {| sin_port := 0x5000; sin_addr := (x01, x02, x03, x04) |}.
Proof.
  apply (printable_ipv4_lossless LittleEndian _ _ 16 20 initial_world
           (one_string_world "x")).
  - vm_compute. discriminate.
  - vm_compute. discriminate.
  - simpl. lia.
  - simpl. lia.
  - vm_compute. reflexivity.
Defined.

(** ** Numeric address codec: edge cases of the Win32 inet_pton *)

(** X10: when getaddrinfo reports success with an empty list, the
    Win32 inet_pton reports success too, although it has written
    nothing: the destination is not touched (it need not even be
    valid), and freeaddrinfo is called on the null list. *)
Theorem inet_pton_no_candidates
    (getaddrinfo : string → option string → evutil_addrinfo → Z * list evutil_addrinfo)
    (af : Z) (src dst : ptr) (w : world) (s : string) :
  cstr_at (heap w) src = Some s →
  getaddrinfo s None (set_ai_family af addrinfo_zero) = (0, []) →
  inet_pton getaddrinfo af src dst w
  = Returned 0 (add_events
      [Getaddrinfo s None (set_ai_family af addrinfo_zero); Freeaddrinfo []] w).
Proof.
  intros Hs Hgai. unfold inet_pton.
  rewrite (bind_run _ _ _ _ _ (read_cstr_run _ _ _ Hs)).
  erewrite bind_run by (unfold platform_answer; rewrite Hgai; reflexivity).
  cbv beta iota. change (0 =? 0) with true. cbv iota.
  simpl copy_candidates.
  erewrite bind_run by reflexivity. erewrite bind_run by reflexivity.
  unfold mret, M_ret. f_equal. apply world_eq; try reflexivity.
  simpl. now rewrite <- app_assoc.
Qed.

Lemma inet_pton_no_candidates_witness :
  inet_pton (λ _ _ _, (0, [])) AF_INET (Ptr 1 0) (Ptr 77 5) pton_world
  = Returned 0 (add_events
      [Getaddrinfo "example.com" None (set_ai_family AF_INET addrinfo_zero);
       Freeaddrinfo []] pton_world).
Proof.
  apply (inet_pton_no_candidates (λ _ _ _, (0, [])) AF_INET (Ptr 1 0) (Ptr 77 5)
           pton_world "example.com").
  - vm_compute. reflexivity.
  - reflexivity.
Defined.

(** X11: the Win32 inet_pton copies ai_addrlen bytes, the whole socket
    address of a candidate, whatever room the destination has: when
    the first candidate is longer than what is left of the destination
    block (a 16-byte sockaddr_in into a 4-byte struct in_addr, say),
    the copy runs past the end of the block. *)
Theorem inet_pton_overruns_destination
    (getaddrinfo : string → option string → evutil_addrinfo → Z * list evutil_addrinfo)
    (af : Z) (src dst : ptr) (w : world) (s : string) (blk : list byte)
    (r : evutil_addrinfo) (rest : list evutil_addrinfo) :
  cstr_at (heap w) src = Some s →
  getaddrinfo s None (set_ai_family af addrinfo_zero) = (0, r :: rest) →
  heap w !! p_block dst = Some blk →
  (length blk < p_off dst + ai_addrlen r)%nat →
  inet_pton getaddrinfo af src dst w = Undefined.
Proof.
  intros Hs Hgai Hb Hlen. unfold inet_pton.
  rewrite (bind_run _ _ _ _ _ (read_cstr_run _ _ _ Hs)).
  erewrite bind_run by (unfold platform_answer; rewrite Hgai; reflexivity).
  cbv beta iota. change (0 =? 0) with true. cbv iota.
  simpl copy_candidates. unfold mbind, M_bind, memcpy. simpl heap. rewrite Hb.
  destruct (decide _) as [[_ Hfit]|_]; [lia | reflexivity].
Qed.

Lemma inet_pton_overruns_destination_witness :
  inet_pton (λ _ _ _, (0, [candidate_loopback])) AF_INET (Ptr 1 0) (Ptr 2 0)
    (set_heap {[ 1%positive := cstring_block "127.0.0.1";
                 2%positive := replicate 4 x00 ]} initial_world)
  = Undefined.
Proof.
  apply (inet_pton_overruns_destination (λ _ _ _, (0, [candidate_loopback])) AF_INET
           (Ptr 1 0) (Ptr 2 0) _ "127.0.0.1" (replicate 4 x00) candidate_loopback []).
  - vm_compute. reflexivity.
  - reflexivity.
  - vm_compute. reflexivity.
  - simpl. lia.
Defined.

(** ** Resolver context holder: what the status promises *)

(** X12: the status of init_evdns_base tells what get_evdns_base will
    return from then on, until the next initialisation: a handle after
    a status of 0, null after a status of -1 (also when a handle was
    stored before the failed call). *)
Theorem init_status_tells_get
    (o : byte_order) (ntop : Z → list byte → nat → option string)
    (gai : string → string → evutil_addrinfo → Z * list evutil_addrinfo * Z)
    (gse se : Z → string)
    (getaddrinfo : string → option string → evutil_addrinfo → Z * list evutil_addrinfo)
    (evdns_base_new : event_base → Z → nat → option evdns_base)
    (base : event_base) (post : list call) (w w2 w3 : world) (status : Z) :
  init_evdns_base evdns_base_new base w = Returned status w2 →
  forallb (λ c, negb (is_init c)) post = true →
  run_calls o ntop gai gse se getaddrinfo evdns_base_new post w2 = Some w3 →
  (status = 0 ↔ ∃ h, get_evdns_base w3 = Returned (Some h) w3)
  ∧ (status = -1 ↔ get_evdns_base w3 = Returned None w3)
  ∧ (status = 0 ∨ status = -1).
Proof.
  intros Hinit Hpost Hrun.
  destruct (run_calls_frame o ntop gai gse se getaddrinfo evdns_base_new
              post w2 w3 Hpost Hrun) as [Hbase _].
  unfold init_evdns_base in Hinit. injection Hinit as <- <-.
  unfold get_evdns_base. rewrite Hbase. simpl.
  destruct (evdns_base_new base 1 (evdns_made w)) as [h|].
  - split; [|split; [|now left]].
    + split; [eauto | reflexivity].
    + split; [discriminate | intros [=]].
  - split; [|split; [|now right]].
    + split; [discriminate | intros [h [=]]].
    + split; reflexivity.
Qed.

Lemma init_status_tells_get_witness :
  get_evdns_base
    {| heap := ∅; trace := []; the_evdns_base := None; evdns_made := 2 |}
  = Returned None
      {| heap := ∅; trace := []; the_evdns_base := None; evdns_made := 2 |}.
Proof.
  refine (proj1 (proj1 (proj2 (init_status_tells_get LittleEndian inet_ntop
            (λ _ _ _, (0, [candidate_v4], 0)) (λ _, "") (λ _, "")
            (λ _ _ _, (0, [candidate_v4]))
            (λ _ _ n, match n with O => Some (EvdnsBase 7) | _ => None end)
            (EventBase 1) [CallGet]
            {| heap := ∅; trace := []; the_evdns_base := Some (EvdnsBase 7);
               evdns_made := 1 |}
            _ _ (-1) _ _ _))) _).
  - reflexivity.
  - reflexivity.
  - reflexivity.
  - reflexivity.
Defined.

(** ** Numeric address codec: the Win32 inet_ntop *)

Lemma cstr_at_write (w : world) (dst : ptr) (blk : list byte) (t : string) :
  heap w !! p_block dst = Some blk →
  nul_free t = true →
  (p_off dst + length (list_byte_of_string t ++ [NUL]) ≤ length blk)%nat →
  ∃ blk',
    memcpy dst (list_byte_of_string t ++ [NUL])
      (length (list_byte_of_string t ++ [NUL])) w
    = Returned tt (set_heap (<[p_block dst := blk']> (heap w)) w)
    ∧ length blk' = length blk
    ∧ cstr_bytes (drop (p_off dst) blk') = Some (list_byte_of_string t).
Proof.
  intros Hb Hnf Hfit. destruct dst as [b off]. simpl p_block in *. simpl p_off in *.
  set (src := list_byte_of_string t ++ [NUL]) in *.
  exists (write_at off blk src (length src)).
  split; [apply memcpy_run; [exact Hb | lia | exact Hfit]|].
  split; [apply write_at_length; lia|].
  unfold write_at. rewrite drop_app_length' by (rewrite length_take; lia).
  rewrite firstn_all. unfold src. rewrite <- app_assoc. simpl app.
  now apply cstr_bytes_terminated.
Qed.

(** X13: the Win32 inet_ntop returns null only for a family other
    than AF_INET and AF_INET6, and then without touching anything; for
    these two families it never reports failure: when getnameinfo
    stores nothing (it has failed), [dst] is returned all the same,
    with the buffer as it was. *)
Theorem win32_inet_ntop_never_fails
    (getnameinfo : sockaddr → Z → nat → Z → Z * option string)
    (af : Z) (src : list byte) (dst : ptr) (cnt : nat) (w : world) :
  (af ≠ AF_INET → af ≠ AF_INET6 →
   Win32.inet_ntop getnameinfo af src dst cnt w = Returned None w)
  ∧ (af = AF_INET ∨ af = AF_INET6 →
     ∀ r w', Win32.inet_ntop getnameinfo af src dst cnt w = Returned r w' →
             r = Some dst)
  ∧ (∀ a rest,
       af = AF_INET → src = in_addr_bytes a ++ rest →
       snd (getnameinfo (SaIn {| sin_port := 0; sin_addr := a |})
              sizeof_sockaddr_in cnt Win32.NI_NUMERICHOST) = None →
       Win32.inet_ntop getnameinfo af src dst cnt w = Returned (Some dst) w)
  ∧ (∀ a rest,
       af = AF_INET6 → src = in6_addr_bytes a ++ rest →
       snd (getnameinfo (SaIn6 {| sin6_port := 0; sin6_flowinfo := 0;
                                  sin6_addr := a; sin6_scope_id := 0 |})
              sizeof_sockaddr_in6 cnt Win32.NI_NUMERICHOST) = None →
       Win32.inet_ntop getnameinfo af src dst cnt w = Returned (Some dst) w).
Proof.
  unfold Win32.inet_ntop. split; [|split; [|split]].
  - intros H4 H6. apply Z.eqb_neq in H4, H6. now rewrite H4, H6.
  - intros Haf r w' H.
    assert (Hret : ∀ (m : M unit) w0, (m ≫= λ _, mret (Some dst)) w0 = Returned r w' →
                                      r = Some dst).
    { intros m w0. unfold mbind, M_bind, mret, M_ret.
      destruct (m w0); [|discriminate..]. now intros [= <- _]. }
    destruct Haf as [-> | ->].
    + change (AF_INET =? AF_INET) with true in H. cbv iota in H.
      unfold mbind at 1, M_bind at 1 in H.
      destruct (Win32.load_in_addr src w) as [a w0| |]; try discriminate.
      exact (Hret _ _ H).
    + change (AF_INET6 =? AF_INET) with false in H.
      change (AF_INET6 =? AF_INET6) with true in H. cbv iota in H.
      unfold mbind at 1, M_bind at 1 in H.
      destruct (Win32.load_in6_addr src w) as [a w0| |]; try discriminate.
      exact (Hret _ _ H).
  - intros [[[b0 b1] b2] b3] rest -> -> Hnone.
    change (AF_INET =? AF_INET) with true. cbv iota. simpl in_addr_bytes. simpl app.
    rewrite (bind_run _ _ w w (b0, b1, b2, b3)) by reflexivity.
    cbv zeta. unfold Win32.call_getnameinfo. rewrite Hnone. reflexivity.
  - intros [[[[[[a0 a1] a2] a3] [[[b0 b1] b2] b3]] [[[c0 c1] c2] c3]] [[[d0 d1] d2] d3]]
      rest -> -> Hnone.
    change (AF_INET6 =? AF_INET) with false.
    change (AF_INET6 =? AF_INET6) with true. cbv iota.
    simpl in6_addr_bytes. simpl app.
    rewrite (bind_run _ _ w w ((a0, a1, a2, a3), (b0, b1, b2, b3),
                               (c0, c1, c2, c3), (d0, d1, d2, d3))) by reflexivity.
    cbv zeta. unfold Win32.call_getnameinfo.
    match goal with
    | |- context [match ?x with Some _ => _ | None => _ end] =>
        replace x with (@None string) by (symmetry; exact Hnone)
    end.
    reflexivity.
Qed.

(** X14: for AF_INET the Win32 inet_ntop hands getnameinfo a
    sockaddr_in holding the four bytes at [src] and port 0, and what
    getnameinfo stores is the string found at [dst] afterwards; with a
    getnameinfo that stores the dotted quad this is the text the C
    library's inet_ntop returns. *)
Theorem win32_inet_ntop_ipv4_text
    (getnameinfo : sockaddr → Z → nat → Z → Z * option string)
    (a : in_addr) (rest : list byte) (dst : ptr) (cnt : nat) (w : world)
    (blk : list byte) (rc : Z) (t : string) :
  getnameinfo (SaIn {| sin_port := 0; sin_addr := a |})
    sizeof_sockaddr_in cnt Win32.NI_NUMERICHOST = (rc, Some t) →
  heap w !! p_block dst = Some blk →
  nul_free t = true →
  (p_off dst + String.length t + 1 ≤ length blk)%nat →
  ∃ w',
    Win32.inet_ntop getnameinfo AF_INET (in_addr_bytes a ++ rest) dst cnt w
    = Returned (Some dst) w'
    ∧ cstr_at (heap w') dst = Some t
    ∧ trace w' = trace w
    ∧ (t = inet_ntop4 a → (String.length t < cnt)%nat →
       inet_ntop AF_INET (in_addr_bytes a ++ rest) cnt = Some t).
Proof.
  intros Hg Hb Hnf Hfit.
  assert (Hlen : length (list_byte_of_string t) = String.length t).
  { clear. induction t as [|c t IH]; [reflexivity|].
    rewrite list_byte_of_string_cons. simpl. now rewrite IH. }
  destruct (cstr_at_write w dst blk t Hb Hnf) as (blk' & Hcpy & Hl & Hstr).
  { rewrite length_app, Hlen. simpl. lia. }
  exists (set_heap (<[p_block dst := blk']> (heap w)) w).
  destruct a as [[[b0 b1] b2] b3].
  split; [|split; [|split]].
  - unfold Win32.inet_ntop. change (AF_INET =? AF_INET) with true. cbv iota.
    simpl in_addr_bytes. simpl app.
    rewrite (bind_run _ _ w w (b0, b1, b2, b3)) by reflexivity.
    cbv zeta. unfold Win32.call_getnameinfo. rewrite Hg. simpl snd.
    rewrite (bind_run _ _ _ _ _ Hcpy). reflexivity.
  - unfold cstr_at. simpl heap. rewrite lookup_insert_eq. simpl.
    rewrite Hstr. simpl. now rewrite string_of_list_byte_of_string.
  - reflexivity.
  - intros -> Hcnt. unfold inet_ntop. change (AF_INET =? AF_INET) with true.
    simpl in_addr_bytes. simpl app. cbv beta iota zeta.
    destruct (Nat.ltb_spec (String.length (inet_ntop4 (b0, b1, b2, b3))) cnt);
      [reflexivity | lia].
Qed.

Lemma win32_inet_ntop_ipv4_text_witness :
  ∃ w',
    Win32.inet_ntop numeric_getnameinfo AF_INET [xc0; x00; x02; x01] (Ptr 1 0) 46
      shim_world
    = Returned (Some (Ptr 1 0)) w'
    ∧ cstr_at (heap w') (Ptr 1 0) = Some "192.0.2.1".
Proof.
  destruct (win32_inet_ntop_ipv4_text numeric_getnameinfo (xc0, x00, x02, x01) []
              (Ptr 1 0) 46 shim_world (replicate 46 xff) 0 "192.0.2.1")
    as (w' & Hrun & Hstr & _).
  - reflexivity.
  - vm_compute. reflexivity.
  - reflexivity.
  - simpl. lia.
  - exists w'. split; [exact Hrun | exact Hstr].
Defined.
